(** * LiveSession: a model of the real-time audio session component

    Shallow embedding of [src/components/LiveSession.tsx].  The React
    component is read as an event-driven state machine: every callback of the
    component (effect on mount, connection callbacks, capture callback,
    playback-ended callback, debounce timer, button handlers) is one
    transition on a record that holds the React state cells, the refs and a
    log of the calls made to the platform.

    Conventions.
    - JavaScript numbers that denote clock times, durations and audio samples
      are modelled as rationals ([Q]) with exact arithmetic.
    - A callback runs to completion.  In [step] the two [async] functions
      ([connectToLiveApi], [handleServerMessage]) also run to completion,
      what they await settling at once; [astep] further down splits them at
      their [await].
    - A state update ([setIsAiSpeaking] and the like) takes effect at once;
      what a long-lived callback sees of the state is what the render that
      created it saw ([Render]).
    - Platform objects (audio contexts, nodes, tracks) are identifiers; what
      the component does to them is recorded in [effects]. *)

From Stdlib Require Import QArith Lqa ZArith Lia List String Ascii.
From stdpp Require Import gmap strings list.

Local Open Scope string_scope.
Local Open Scope list_scope.

(* stdpp's solvers clear hypotheses by name; this is harmless here. *)
#[local] Set Warnings "-clear-no-such-hyp".

(** ** Platform data *)

Abbreviation CtxId := positive (only parsing).
Abbreviation NodeId := positive (only parsing).
Abbreviation TrackId := positive (only parsing).
Abbreviation Handle := positive (only parsing).   (* an AudioBufferSourceNode *)
Abbreviation Uint8Array := (list Z) (only parsing).
Abbreviation Float32Array := (list Q) (only parsing).

(** [AudioBuffer] of the Web Audio API: [duration = length / sampleRate]. *)
Record AudioBuffer := mkAudioBuffer {
  ab_length : N;
  ab_sampleRate : positive;
  ab_numberOfChannels : positive
}.

Definition duration (b : AudioBuffer) : Q := Z.of_N (ab_length b) # ab_sampleRate b.

(** [Blob] of the SDK: base64 payload and its mime type. *)
Record Blob := mkBlob { blob_data : string; blob_mimeType : string }.

(** The helpers imported from [../utils/audio]; that module is not part of the
    sources at hand, so the component is parameterised by them.
    [decodeAudioData] answers [None] when the call throws. *)
Class AudioUtils := {
  base64ToUint8Array : string -> Uint8Array;
  createPCM16Blob : Float32Array -> Blob;
  decodeAudioData : Uint8Array -> CtxId -> positive -> positive -> option AudioBuffer
}.

(** ** Inbound messages ([LiveServerMessage] as far as the component reads it) *)

Record Transcription := mkTranscription { text : option string }.
Record InlineData := mkInlineData { data : option string }.
Record Part := mkPart { inlineData : option InlineData }.
Record ModelTurn := mkModelTurn {
  turnComplete : bool;
  parts : option (list Part)
}.
Record ServerContent := mkServerContent {
  interrupted : bool;
  modelTurn : option ModelTurn;
  inputTranscription : option Transcription;
  outputTranscription : option Transcription
}.
Record LiveServerMessage := mkMessage { serverContent : option ServerContent }.

(** JavaScript truthiness of an optional string: present and non-empty. *)
Definition truthy (o : option string) : option string :=
  match o with
  | Some EmptyString => None
  | Some t => Some t
  | None => None
  end.

(** [serverContent.modelTurn?.turnComplete] *)
Definition modelTurn_turnComplete (sc : ServerContent) : bool :=
  match modelTurn sc with
  | Some mt => turnComplete mt
  | None => false
  end.

(** [serverContent.inputTranscription?.text] *)
Definition inputTranscription_text (sc : ServerContent) : option string :=
  match inputTranscription sc with
  | Some t => truthy (text t)
  | None => None
  end.

(** [serverContent.outputTranscription?.text] *)
Definition outputTranscription_text (sc : ServerContent) : option string :=
  match outputTranscription sc with
  | Some t => truthy (text t)
  | None => None
  end.

(** [serverContent.modelTurn?.parts?.[0]?.inlineData?.data] *)
Definition base64Audio (sc : ServerContent) : option string :=
  match modelTurn sc with
  | Some mt =>
      match parts mt with
      | Some (p :: _) =>
          match inlineData p with
          | Some d => truthy (data d)
          | None => None
          end
      | _ => None
      end
  | None => None
  end.

(** ** Calls made to the platform, in the order they are made *)

Inductive Effect :=
| NodeDisconnect (n : NodeId)
| TrackStop (t : TrackId)
| ContextClose (c : CtxId)
| SourceStart (h : Handle) (when : Q) (b : AudioBuffer)
| SourceStop (h : Handle)
| SendRealtimeInput (media : Blob)
| ConsoleError (msg : string)
| SetTimeout (ms : Z)
| OnEndSession (transcript : string).

(** ** Closures

    The body of the component runs once per render; the functions it defines
    close over the values of that render.  Of the state cells only [isMuted]
    is read by a long-lived callback, so a render is summarised by it. *)
Record Render := mkRender { r_isMuted : bool }.

(** The script processor node with its [onaudioprocess] callback, which is a
    closure of the render whose [startAudioInput] created it. *)
Record Processor := mkProcessor { proc_node : NodeId; proc_env : Render }.

(** ** Component state *)

Record State := mkState {
  (* useState *)
  isConnected : bool;
  error : option string;
  isMuted : bool;
  isAiSpeaking : bool;
  (* useRef *)
  audioContextRef : option CtxId;
  inputContextRef : option CtxId;
  streamRef : option (list TrackId);
  processorRef : option Processor;
  sourceRef : option NodeId;
  sessionRef : bool;
  nextStartTimeRef : Q;
  sourcesRef : gset Handle;
  transcriptRef : string;
  (* environment *)
  callbacks : option Render;     (* closures handed to ai.live.connect *)
  timers : nat;                  (* pending debounce callbacks *)
  nextNode : positive;           (* next fresh node identity *)
  effects : list Effect
}.

Definition set_isConnected (v : bool) (s : State) : State :=
  mkState v (error s) (isMuted s) (isAiSpeaking s) (audioContextRef s)
    (inputContextRef s) (streamRef s) (processorRef s) (sourceRef s)
    (sessionRef s) (nextStartTimeRef s) (sourcesRef s) (transcriptRef s)
    (callbacks s) (timers s) (nextNode s) (effects s).

Definition set_error (v : option string) (s : State) : State :=
  mkState (isConnected s) v (isMuted s) (isAiSpeaking s) (audioContextRef s)
    (inputContextRef s) (streamRef s) (processorRef s) (sourceRef s)
    (sessionRef s) (nextStartTimeRef s) (sourcesRef s) (transcriptRef s)
    (callbacks s) (timers s) (nextNode s) (effects s).

Definition set_isMuted (v : bool) (s : State) : State :=
  mkState (isConnected s) (error s) v (isAiSpeaking s) (audioContextRef s)
    (inputContextRef s) (streamRef s) (processorRef s) (sourceRef s)
    (sessionRef s) (nextStartTimeRef s) (sourcesRef s) (transcriptRef s)
    (callbacks s) (timers s) (nextNode s) (effects s).

Definition set_isAiSpeaking (v : bool) (s : State) : State :=
  mkState (isConnected s) (error s) (isMuted s) v (audioContextRef s)
    (inputContextRef s) (streamRef s) (processorRef s) (sourceRef s)
    (sessionRef s) (nextStartTimeRef s) (sourcesRef s) (transcriptRef s)
    (callbacks s) (timers s) (nextNode s) (effects s).

Definition set_audioContextRef (v : option CtxId) (s : State) : State :=
  mkState (isConnected s) (error s) (isMuted s) (isAiSpeaking s) v
    (inputContextRef s) (streamRef s) (processorRef s) (sourceRef s)
    (sessionRef s) (nextStartTimeRef s) (sourcesRef s) (transcriptRef s)
    (callbacks s) (timers s) (nextNode s) (effects s).

Definition set_inputContextRef (v : option CtxId) (s : State) : State :=
  mkState (isConnected s) (error s) (isMuted s) (isAiSpeaking s)
    (audioContextRef s) v (streamRef s) (processorRef s) (sourceRef s)
    (sessionRef s) (nextStartTimeRef s) (sourcesRef s) (transcriptRef s)
    (callbacks s) (timers s) (nextNode s) (effects s).

Definition set_streamRef (v : option (list TrackId)) (s : State) : State :=
  mkState (isConnected s) (error s) (isMuted s) (isAiSpeaking s)
    (audioContextRef s) (inputContextRef s) v (processorRef s) (sourceRef s)
    (sessionRef s) (nextStartTimeRef s) (sourcesRef s) (transcriptRef s)
    (callbacks s) (timers s) (nextNode s) (effects s).

Definition set_processorRef (v : option Processor) (s : State) : State :=
  mkState (isConnected s) (error s) (isMuted s) (isAiSpeaking s)
    (audioContextRef s) (inputContextRef s) (streamRef s) v (sourceRef s)
    (sessionRef s) (nextStartTimeRef s) (sourcesRef s) (transcriptRef s)
    (callbacks s) (timers s) (nextNode s) (effects s).

Definition set_sourceRef (v : option NodeId) (s : State) : State :=
  mkState (isConnected s) (error s) (isMuted s) (isAiSpeaking s)
    (audioContextRef s) (inputContextRef s) (streamRef s) (processorRef s) v
    (sessionRef s) (nextStartTimeRef s) (sourcesRef s) (transcriptRef s)
    (callbacks s) (timers s) (nextNode s) (effects s).

Definition set_sessionRef (v : bool) (s : State) : State :=
  mkState (isConnected s) (error s) (isMuted s) (isAiSpeaking s)
    (audioContextRef s) (inputContextRef s) (streamRef s) (processorRef s)
    (sourceRef s) v (nextStartTimeRef s) (sourcesRef s) (transcriptRef s)
    (callbacks s) (timers s) (nextNode s) (effects s).

Definition set_nextStartTimeRef (v : Q) (s : State) : State :=
  mkState (isConnected s) (error s) (isMuted s) (isAiSpeaking s)
    (audioContextRef s) (inputContextRef s) (streamRef s) (processorRef s)
    (sourceRef s) (sessionRef s) v (sourcesRef s) (transcriptRef s)
    (callbacks s) (timers s) (nextNode s) (effects s).

Definition set_sourcesRef (v : gset Handle) (s : State) : State :=
  mkState (isConnected s) (error s) (isMuted s) (isAiSpeaking s)
    (audioContextRef s) (inputContextRef s) (streamRef s) (processorRef s)
    (sourceRef s) (sessionRef s) (nextStartTimeRef s) v (transcriptRef s)
    (callbacks s) (timers s) (nextNode s) (effects s).

Definition set_transcriptRef (v : string) (s : State) : State :=
  mkState (isConnected s) (error s) (isMuted s) (isAiSpeaking s)
    (audioContextRef s) (inputContextRef s) (streamRef s) (processorRef s)
    (sourceRef s) (sessionRef s) (nextStartTimeRef s) (sourcesRef s) v
    (callbacks s) (timers s) (nextNode s) (effects s).

Definition set_callbacks (v : option Render) (s : State) : State :=
  mkState (isConnected s) (error s) (isMuted s) (isAiSpeaking s)
    (audioContextRef s) (inputContextRef s) (streamRef s) (processorRef s)
    (sourceRef s) (sessionRef s) (nextStartTimeRef s) (sourcesRef s)
    (transcriptRef s) v (timers s) (nextNode s) (effects s).

Definition set_timers (v : nat) (s : State) : State :=
  mkState (isConnected s) (error s) (isMuted s) (isAiSpeaking s)
    (audioContextRef s) (inputContextRef s) (streamRef s) (processorRef s)
    (sourceRef s) (sessionRef s) (nextStartTimeRef s) (sourcesRef s)
    (transcriptRef s) (callbacks s) v (nextNode s) (effects s).

Definition set_nextNode (v : positive) (s : State) : State :=
  mkState (isConnected s) (error s) (isMuted s) (isAiSpeaking s)
    (audioContextRef s) (inputContextRef s) (streamRef s) (processorRef s)
    (sourceRef s) (sessionRef s) (nextStartTimeRef s) (sourcesRef s)
    (transcriptRef s) (callbacks s) (timers s) v (effects s).

(** Perform a platform call: append it to the log. *)
Definition emit (e : Effect) (s : State) : State :=
  mkState (isConnected s) (error s) (isMuted s) (isAiSpeaking s)
    (audioContextRef s) (inputContextRef s) (streamRef s) (processorRef s)
    (sourceRef s) (sessionRef s) (nextStartTimeRef s) (sourcesRef s)
    (transcriptRef s) (callbacks s) (timers s) (nextNode s) (effects s ++ [e]).

Definition emit_all (es : list Effect) (s : State) : State :=
  fold_left (fun acc e => emit e acc) es s.

(** Statements of a callback body are chained left to right. *)
Notation "s |> f" := (f s) (at level 45, left associativity, only parsing).

(** The state of a freshly rendered component, before the mount effect. *)
Definition initialState : State :=
  mkState false None false false None None None None None false 0%Q ∅ ""
    None 0 1%positive [].

Definition render (s : State) : Render := mkRender (isMuted s).

(** ** The component's functions *)

(** Outcome of the platform calls made by [connectToLiveApi]: the two audio
    contexts it constructs and the result of [getUserMedia]: the tracks of
    the stream, or the [message] of the error it is rejected with. *)
Record ConnectEnv := mkConnectEnv {
  env_inputContext : CtxId;
  env_outputContext : CtxId;
  env_getUserMedia : option (list TrackId);
  env_errorMessage : option string
}.

Definition newline : string := String "010" EmptyString.

Section Component.
Context {utils : AudioUtils}.

(** [cleanup], lines 42-70. *)
Definition cleanup (s : State) : State :=
  let s := match processorRef s with
           | Some p => s |> emit (NodeDisconnect (proc_node p)) |> set_processorRef None
           | None => s
           end in
  let s := match sourceRef s with
           | Some n => s |> emit (NodeDisconnect n) |> set_sourceRef None
           | None => s
           end in
  let s := match streamRef s with
           | Some tracks => s |> emit_all (map TrackStop tracks) |> set_streamRef None
           | None => s
           end in
  let s := match inputContextRef s with
           | Some c => s |> emit (ContextClose c) |> set_inputContextRef None
           | None => s
           end in
  let s := match audioContextRef s with
           | Some c => s |> emit (ContextClose c) |> set_audioContextRef None
           | None => s
           end in
  s |> emit_all (map SourceStop (elements (sourcesRef s))) |> set_sourcesRef ∅.

(** [connectToLiveApi], lines 72-122, as a closure of render [r].  The
    callbacks object handed to [ai.live.connect] is made of closures of the
    same render. *)
Definition connectToLiveApi (r : Render) (env : ConnectEnv) (s : State) : State :=
  let s := s |> set_inputContextRef (Some (env_inputContext env))
             |> set_audioContextRef (Some (env_outputContext env)) in
  match env_getUserMedia env with
  | Some stream =>
      s |> set_streamRef (Some stream) |> set_callbacks (Some r) |> set_sessionRef true
  | None =>
      let message := match truthy (env_errorMessage env) with
                     | Some msg => msg
                     | None => "Failed to access microphone or connect to API."
                     end in
      s |> emit (ConsoleError "Connection failed:")
        |> set_error (Some message)
  end.

(** [startAudioInput], lines 124-147, as a closure of render [r]: the
    [onaudioprocess] callback it installs reads the [isMuted] of [r]. *)
Definition startAudioInput (r : Render) (s : State) : State :=
  match inputContextRef s with
  | None => s
  | Some _ =>
      let source := nextNode s in
      let processor := Pos.succ source in
      s |> set_nextNode (Pos.succ processor)
        |> set_sourceRef (Some source)
        |> set_processorRef (Some (mkProcessor processor r))
  end.

(** [processor.onaudioprocess], lines 131-140.  The session promise is
    resolved by the time the processor exists (it is created in [onopen]),
    so the [then] callback runs. *)
Definition onaudioprocess (p : Processor) (inputData : Float32Array) (s : State) : State :=
  if r_isMuted (proc_env p) then s
  else
    let pcmBlob := createPCM16Blob inputData in
    s |> emit (SendRealtimeInput pcmBlob).

(** Connection callbacks, lines 98-112. *)
Definition onopen (r : Render) (s : State) : State :=
  s |> set_isConnected true |> startAudioInput r.

Definition onclose (s : State) : State :=
  s |> set_isConnected false.

Definition onerror (s : State) : State :=
  s |> emit (ConsoleError "Live API Error:")
    |> set_error (Some "Connection lost. Please try again.")
    |> set_isConnected false.

(** The interruption branch, lines 154-162. *)
Definition handleInterruption (s : State) : State :=
  s |> emit_all (map SourceStop (elements (sourcesRef s)))
    |> set_sourcesRef ∅
    |> set_nextStartTimeRef 0%Q
    |> set_isAiSpeaking false.

(** Scheduling of a decoded buffer, lines 186-200. *)
Definition scheduleBuffer (audioBuffer : AudioBuffer) (currentTime : Q) (s : State) : State :=
  let s := if negb (Qle_bool currentTime (nextStartTimeRef s))
           then s |> set_nextStartTimeRef currentTime
           else s in
  let source := nextNode s in
  s |> set_nextNode (Pos.succ source)
    |> emit (SourceStart source (nextStartTimeRef s) audioBuffer)
    |> set_nextStartTimeRef (nextStartTimeRef s + duration audioBuffer)%Q
    |> set_sourcesRef ({[source]} ∪ sourcesRef s).

(** The transcript branch, lines 164-174. *)
Definition handleTranscripts (sc : ServerContent) (s : State) : State :=
  let s := if modelTurn_turnComplete sc then s |> set_isAiSpeaking false else s in
  let s := match inputTranscription_text sc with
           | Some t => s |> set_transcriptRef (transcriptRef s ++ "User: " ++ t ++ newline)
           | None => s
           end in
  match outputTranscription_text sc with
  | Some t => s |> set_transcriptRef (transcriptRef s ++ "Tutor: " ++ t ++ newline)
  | None => s
  end.

(** The audio output branch, lines 176-215; [currentTime] is what
    [ctx.currentTime] reads when the buffer is scheduled.  The [catch] clause
    covers [decodeAudioData] and the scheduling statements. *)
Definition handleAudioOutput (sc : ServerContent) (ctx : CtxId) (currentTime : Q)
    (s : State) : State :=
  match base64Audio sc with
  | Some b64 =>
      let s := s |> set_isAiSpeaking true in
      let audioData := base64ToUint8Array b64 in
      match decodeAudioData audioData ctx 24000 1 with
      | Some audioBuffer => scheduleBuffer audioBuffer currentTime s
      | None => s |> emit (ConsoleError "Error decoding audio")
      end
  | None => s
  end.

(** [handleServerMessage], lines 149-216. *)
Definition handleServerMessage (message : LiveServerMessage) (currentTime : Q)
    (s : State) : State :=
  match serverContent message, audioContextRef s with
  | Some sc, Some ctx =>
      if interrupted sc then handleInterruption s
      else s |> handleTranscripts sc |> handleAudioOutput sc ctx currentTime
  | _, _ => s
  end.

(** [source.onended], lines 201-210. *)
Definition onended (source : Handle) (s : State) : State :=
  let s := s |> set_sourcesRef (sourcesRef s ∖ {[source]}) in
  if decide (size (sourcesRef s) = 0)
  then s |> emit (SetTimeout 200) |> set_timers (S (timers s))
  else s.

(** The callback given to [setTimeout], line 207. *)
Definition debounceElapsed (s : State) : State :=
  if decide (size (sourcesRef s) = 0) then s |> set_isAiSpeaking false else s.

(** [handleEndSession], lines 218-221. *)
Definition handleEndSession (s : State) : State :=
  let s := cleanup s in
  s |> emit (OnEndSession (transcriptRef s)).

(** [toggleMute], lines 223-225, as a closure of render [r]. *)
Definition toggleMute (r : Render) (s : State) : State :=
  s |> set_isMuted (negb (r_isMuted r)).

(** ** The event loop *)

Inductive Event :=
| EvMount (env : ConnectEnv)          (* the effect of the first render *)
| EvOpen
| EvMessage (message : LiveServerMessage) (currentTime : Q)
| EvClose
| EvError
| EvAudioProcess (inputData : Float32Array)
| EvEnded (source : Handle)
| EvTimeout
| EvToggleMute
| EvEndSession
| EvUnmount.

(** One turn of the event loop.  Connection callbacks are the closures
    registered by [connectToLiveApi]; the capture callback is the one of the
    processor currently installed; the mute button is bound to the
    [toggleMute] of the latest render. *)
Definition step (s : State) (e : Event) : State :=
  match e with
  | EvMount env => connectToLiveApi (render s) env s
  | EvOpen =>
      match callbacks s with
      | Some r => onopen r s
      | None => s
      end
  | EvMessage message currentTime =>
      match callbacks s with
      | Some _ => handleServerMessage message currentTime s
      | None => s
      end
  | EvClose => match callbacks s with Some _ => onclose s | None => s end
  | EvError => match callbacks s with Some _ => onerror s | None => s end
  | EvAudioProcess inputData =>
      match processorRef s with
      | Some p => onaudioprocess p inputData s
      | None => s
      end
  | EvEnded source => onended source s
  | EvTimeout =>
      match timers s with
      | O => s
      | S n => s |> set_timers n |> debounceElapsed
      end
  | EvToggleMute => toggleMute (render s) s
  | EvEndSession => handleEndSession s
  | EvUnmount => cleanup s
  end.

Definition run (s : State) (tr : list Event) : State := fold_left step tr s.

End Component.

(** ** The audio frame codec *)

Module Codec.

(** Modelled from the spec: the clamp of the encoder of [utils/audio]
    ([createPCM16Blob]), whose source is missing: "each floating-point sample
    is clamped to [-1.0, 1.0]".  Samples are rationals. *)
Definition clampSample (s : Q) : Q :=
  if Qle_bool s (-1) then (-1)%Q
  else if Qle_bool 1 s then 1%Q
  else s.

(** Modelled from the spec: the conversion to an integer inside the encoder
    of [utils/audio], whose source is missing; the spec leaves the rounding
    open, and the fractional part is dropped, as a store into a typed integer
    array does. *)
Definition truncate (q : Q) : Z := Z.quot (Qnum q) (Zpos (Qden q)).

(** Modelled from the spec: the scaling of the encoder of [utils/audio],
    whose source is missing: the clamped sample is "linearly scaled to the
    signed 16-bit integer range" -32768..32767, the negative half by 2^15 and
    the other half by 2^15 - 1, so that -1.0 and 1.0 reach the two ends. *)
Definition encodeSample (s : Q) : Z :=
  let c := clampSample s in
  if Qle_bool 0 c then truncate (c * 32767)%Q else truncate (c * 32768)%Q.

(** Modelled from the spec: the byte layout written by the encoder of
    [utils/audio], whose source is missing: a signed 16-bit integer "stored
    little-endian", in two's complement, least significant byte first. *)
Definition int16_bytes (v : Z) : list Z :=
  [v mod 256; (v / 256) mod 256]%Z.

(** Modelled from the spec: the byte layout read by the decoder of
    [utils/audio], whose source is missing: two bytes, least significant
    first, as a signed 16-bit integer. *)
Definition bytes_int16 (lo hi : Z) : Z :=
  let u := (lo + 256 * hi)%Z in
  (if 32768 <=? u then u - 65536 else u)%Z.

(** Modelled from the spec: the sample bytes written by [createPCM16Blob] of
    [utils/audio], whose source is missing: 16-bit PCM "stored
    little-endian", one sample after the other. *)
Definition encodePCM16 (samples : Float32Array) : Uint8Array :=
  flat_map (fun s => int16_bytes (encodeSample s)) samples.

(** Modelled from the spec: the sample mapping of the decoder of
    [utils/audio], whose source is missing: the "inverse mapping" of
    [encodeSample], "back to floating-point samples in [-1.0, 1.0]". *)
Definition decodeSample (v : Z) : Q :=
  if (0 <=? v)%Z then v # 32767 else v # 32768.

(** Modelled from the spec: the "16-bit PCM bytes" read by the decoder of
    [utils/audio], whose source is missing, as 16-bit samples; a trailing odd
    byte is not a sample. *)
Fixpoint int16s (bytes : Uint8Array) : list Z :=
  match bytes with
  | lo :: hi :: rest => bytes_int16 lo hi :: int16s rest
  | _ => []
  end.

(** Modelled from the spec: the samples produced by the decoder of
    [utils/audio], whose source is missing. *)
Definition decodePCM16 (bytes : Uint8Array) : Float32Array :=
  map decodeSample (int16s bytes).

(** Modelled from the spec: [decodeAudioData] of [utils/audio], whose source
    is missing: it yields a buffer "at the declared output rate and channel
    count" with "a well-defined sample count and duration": one frame per
    sample and channel. *)
Definition decodeAudioData (data : Uint8Array) (ctx : CtxId)
    (sampleRate numChannels : positive) : option AudioBuffer :=
  let samples := decodePCM16 data in
  Some (mkAudioBuffer (N.of_nat (List.length samples) / Npos numChannels)%N
          sampleRate numChannels).

End Codec.

(** ** A stand-in for [utils/audio] on which the component can be run

    The payload is the raw PCM bytes written as characters (the base64
    armour of the transport is left out); decoding fails on a payload with a
    truncated sample. *)
Definition bytes_of_string (s : string) : Uint8Array :=
  map (fun c => Z.of_nat (nat_of_ascii c)) (list_ascii_of_string s).

Definition string_of_bytes (b : Uint8Array) : string :=
  string_of_list_ascii (map (fun z => ascii_of_nat (Z.to_nat z)) b).

Definition testUtils : AudioUtils := {|
  base64ToUint8Array := bytes_of_string;
  createPCM16Blob := fun samples =>
    mkBlob (string_of_bytes (Codec.encodePCM16 samples)) "audio/pcm;rate=16000";
  decodeAudioData := fun data ctx sampleRate numChannels =>
    if Nat.even (List.length data)
    then Codec.decodeAudioData data ctx sampleRate numChannels
    else None
|}.

(** ** Observations on states, logs and traces *)

(** The buffers handed to [source.start], in order: start time and duration. *)
Definition scheduled (es : list Effect) : list (Q * Q) :=
  flat_map (fun e => match e with
                     | SourceStart _ when b => [(when, duration b)]
                     | _ => []
                     end) es.

(** Every buffer of [l] starts no earlier than the previous one ends, the
    first one no earlier than [lo]. *)
Fixpoint chain (lo : Q) (l : list (Q * Q)) : Prop :=
  match l with
  | [] => True
  | (t, d) :: r => (lo <= t)%Q /\ (0 <= d)%Q /\ chain (t + d) r
  end.

Fixpoint chain_end (lo : Q) (l : list (Q * Q)) : Q :=
  match l with
  | [] => lo
  | (t, d) :: r => chain_end (t + d) r
  end.

(** An event that is not an inbound message flagged [interrupted]. *)
Definition no_interruption (e : Event) : Prop :=
  match e with
  | EvMessage message _ =>
      match serverContent message with
      | Some sc => interrupted sc = false
      | None => True
      end
  | _ => True
  end.

(** What [cleanup] asks of the platform in state [s]. *)
Definition releases (s : State) : list Effect :=
  match processorRef s with Some p => [NodeDisconnect (proc_node p)] | None => [] end ++
  match sourceRef s with Some n => [NodeDisconnect n] | None => [] end ++
  match streamRef s with Some tracks => map TrackStop tracks | None => [] end ++
  match inputContextRef s with Some c => [ContextClose c] | None => [] end ++
  match audioContextRef s with Some c => [ContextClose c] | None => [] end ++
  map SourceStop (elements (sourcesRef s)).

(** The text appended to the transcript by one message, lines 169-174. *)
Definition transcriptLines (sc : ServerContent) : string :=
  match inputTranscription_text sc with
  | Some t => "User: " ++ t ++ newline
  | None => ""
  end ++
  match outputTranscription_text sc with
  | Some t => "Tutor: " ++ t ++ newline
  | None => ""
  end.

(** Inbound messages used to exercise the component. *)
Definition audioMessage (b64 : string) : LiveServerMessage :=
  mkMessage (Some (mkServerContent false
    (Some (mkModelTurn false (Some [mkPart (Some (mkInlineData (Some b64)))])))
    None None)).

Definition interruptedMessage : LiveServerMessage :=
  mkMessage (Some (mkServerContent true None None None)).

Definition turnCompleteMessage : LiveServerMessage :=
  mkMessage (Some (mkServerContent false (Some (mkModelTurn true None)) None None)).

(** An interruption that also carries a transcription and audio. *)
Definition loadedInterruption (t b64 : string) : LiveServerMessage :=
  mkMessage (Some (mkServerContent true
    (Some (mkModelTurn false (Some [mkPart (Some (mkInlineData (Some b64)))])))
    (Some (mkTranscription (Some t))) (Some (mkTranscription (Some t))))).

(** A session with two audio contexts and a one-track microphone stream. *)
Definition testEnv : ConnectEnv := mkConnectEnv 1 2 (Some [7%positive]) None.

(** Mounted, connected, two buffers of two frames each received at clock
    time 1/2. *)
Definition playingTrace : list Event :=
  [EvMount testEnv; EvOpen;
   EvMessage (audioMessage "abcd") (1 # 2);
   EvMessage (audioMessage "efgh") (1 # 2)].

(** Closed after a session that played one buffer: [cleanup] has released
    the audio contexts, the connection callbacks are still registered. *)
Definition endedTrace : list Event :=
  [EvMount testEnv; EvOpen; EvMessage (audioMessage "abcd") (1 # 2); EvEndSession].

(** The calls that stop or release a resource. *)
Definition isRelease (e : Effect) : bool :=
  match e with
  | NodeDisconnect _ | TrackStop _ | ContextClose _ | SourceStop _ => true
  | _ => false
  end.

Definition released (es : list Effect) : list Effect := List.filter isRelease es.

(** [e] is the release call of a resource held by [s]: the capture processor,
    the media stream source, a track of the stream, one of the two audio
    contexts, an active playback source. *)
Definition owns (s : State) (e : Effect) : Prop :=
  match e with
  | NodeDisconnect n =>
      (exists p, processorRef s = Some p /\ proc_node p = n) \/ sourceRef s = Some n
  | TrackStop t => exists tracks, streamRef s = Some tracks /\ t ∈ tracks
  | ContextClose c => inputContextRef s = Some c \/ audioContextRef s = Some c
  | SourceStop h => h ∈ sourcesRef s
  | _ => False
  end.

(** The refs hold different objects: the two capture nodes differ, the tracks
    of the stream are pairwise different, the two audio contexts differ. *)
Definition distinct_resources (s : State) : Prop :=
  (forall p n, processorRef s = Some p -> sourceRef s = Some n -> proc_node p <> n) /\
  (forall tracks, streamRef s = Some tracks -> NoDup tracks) /\
  (forall c1 c2, inputContextRef s = Some c1 -> audioContextRef s = Some c2 -> c1 <> c2).

(** The platform hands out different objects: two different audio contexts
    and a stream whose tracks are pairwise different. *)
Definition fresh_resources (e : Event) : Prop :=
  match e with
  | EvMount env =>
      env_inputContext env <> env_outputContext env /\
      forall tracks, env_getUserMedia env = Some tracks -> NoDup tracks
  | _ => True
  end.

(** The exit paths that run [cleanup]: the end-session button and the
    teardown of the effect on unmount. *)
Definition exit_event (e : Event) : Prop := e = EvEndSession \/ e = EvUnmount.

(** ** Transcription events *)

Inductive Speaker := User | Tutor.

(** A message that carries one transcription: of the user's speech
    ([inputTranscription]) or of the tutor's ([outputTranscription]). *)
Definition transcriptionMessage (ev : Speaker * string) : LiveServerMessage :=
  match fst ev with
  | User =>
      mkMessage (Some (mkServerContent false None
        (Some (mkTranscription (Some (snd ev)))) None))
  | Tutor =>
      mkMessage (Some (mkServerContent false None
        None (Some (mkTranscription (Some (snd ev))))))
  end.

(** Transcription events delivered one message each. *)
Definition transcriptionTrace (evs : list (Speaker * string)) (now : Q) : list Event :=
  map (fun ev => EvMessage (transcriptionMessage ev) now) evs.

Definition speakerTag (sp : Speaker) : string :=
  match sp with
  | User => "User: "
  | Tutor => "Tutor: "
  end.

(** The line written for an event, without its terminator. *)
Definition transcriptLine (ev : Speaker * string) : string :=
  speakerTag (fst ev) ++ snd ev.

Fixpoint renderTranscript (evs : list (Speaker * string)) : string :=
  match evs with
  | [] => ""
  | ev :: rest => transcriptLine ev ++ newline ++ renderTranscript rest
  end.

(** The lines of a text, each ended by a line feed; a last line without one
    counts as well. *)
Fixpoint splitLines (s : string) : list string :=
  match s with
  | EmptyString => []
  | String c r =>
      if Ascii.eqb c "010" then "" :: splitLines r
      else match splitLines r with
           | [] => [String c ""]
           | l :: ls => String c l :: ls
           end
  end.

Fixpoint noNewline (s : string) : bool :=
  match s with
  | EmptyString => true
  | String c r => negb (Ascii.eqb c "010") && noNewline r
  end.

(** The example of the transcript ordering property. *)
Definition abcEvents : list (Speaker * string) :=
  [(User, "A"); (Tutor, "B"); (User, "C")].

(** ** Outbound frames *)

(** The frames handed to [session.sendRealtimeInput], in order. *)
Definition sent (es : list Effect) : list Blob :=
  flat_map (fun e => match e with
                     | SendRealtimeInput media => [media]
                     | _ => []
                     end) es.

Definition is_mount (e : Event) : bool :=
  match e with
  | EvMount _ => true
  | _ => false
  end.

(** Every long-lived closure of the state was created by the first render,
    where [isMuted] is the initial [false]. *)
Definition closures_of_first_render (s : State) : Prop :=
  (forall r, callbacks s = Some r -> r = render initialState) /\
  (forall p, processorRef s = Some p -> proc_env p = render initialState).

(** Mounted, connected, then the mute button pressed once. *)
Definition mutedTrace : list Event := [EvMount testEnv; EvOpen; EvToggleMute].

(** Mounted, connected, then the connection reports an error. *)
Definition erroredTrace : list Event := [EvMount testEnv; EvOpen; EvError].

(** Mounted, connected, then the connection is closed by the peer. *)
Definition closedTrace : list Event := [EvMount testEnv; EvOpen; EvClose].

(** Two capture windows. *)
Definition window1 : list Q := [1 # 2; -1 # 4]%Q.
Definition window2 : list Q := [0; 3 # 2]%Q.

(** ** The "AI is speaking" state *)

(** A message that ends the model turn without carrying audio (and is not an
    interruption). *)
Definition bare_turnComplete (e : Event) : Prop :=
  match e with
  | EvMessage message _ =>
      match serverContent message with
      | Some sc =>
          interrupted sc = false /\ modelTurn_turnComplete sc = true /\
          base64Audio sc = None
      | None => False
      end
  | _ => False
  end.

(** ** Further observations on the session component *)

(** The status badge, line 240. *)
Definition statusLabel (s : State) : string :=
  match truthy (error s) with
  | Some _ => "Error"
  | None => if isConnected s then "Connected" else "Connecting..."
  end.

(** The source nodes handed to [source.start] and to [source.stop]. *)
Definition started (es : list Effect) : list Handle :=
  flat_map (fun e => match e with
                     | SourceStart h _ _ => [h]
                     | _ => []
                     end) es.

Definition stopped (es : list Effect) : list Handle :=
  flat_map (fun e => match e with
                     | SourceStop h => [h]
                     | _ => []
                     end) es.

Definition is_open (e : Event) : bool :=
  match e with
  | EvOpen => true
  | _ => false
  end.

Definition is_message (e : Event) : bool :=
  match e with
  | EvMessage _ _ => true
  | _ => false
  end.

Definition is_ended (e : Event) : bool :=
  match e with
  | EvEnded _ => true
  | _ => false
  end.

(** Every source node started so far was created before [nextNode]; no node
    was started twice; the active set and the stopped nodes are among the
    started ones. *)
Definition handles_inv (s : State) : Prop :=
  (forall h, h ∈ started (effects s) -> (h < nextNode s)%positive) /\
  NoDup (started (effects s)) /\
  (forall h, h ∈ sourcesRef s -> h ∈ started (effects s)) /\
  (forall h, h ∈ stopped (effects s) -> h ∈ started (effects s)).

(** The state [cleanup] leaves behind: no context, no capture node, no
    stream, no active source. *)
Definition torn_down (s : State) : Prop :=
  audioContextRef s = None /\ inputContextRef s = None /\
  processorRef s = None /\ sourceRef s = None /\ streamRef s = None /\
  sourcesRef s = ∅.

(** A microphone request that is rejected with message "Permission denied". *)
Definition deniedEnv : ConnectEnv :=
  mkConnectEnv 1 2 None (Some "Permission denied").

(** ** Suspension points

    Two functions of the component are [async] and hand control back to the
    event loop in the middle of their body: [connectToLiveApi] at
    [await navigator.mediaDevices.getUserMedia] (line 83) and
    [handleServerMessage] at [await decodeAudioData] (line 184); [onmessage]
    does not wait for the handler it calls (line 103).  Other callbacks can
    run between the two halves.  [step] takes the two halves in one turn;
    here each half is a turn of its own. *)

(** A call of [decodeAudioData] that has not settled: the context and the
    bytes held by the local variables [ctx] and [audioData] of the suspended
    handler (lines 180-181). *)
Record PendingDecode := mkPendingDecode {
  pd_ctx : CtxId;
  pd_audioData : Uint8Array
}.

Section Suspension.
Context {utils : AudioUtils}.

(** [connectToLiveApi] up to its [await], lines 72-83. *)
Definition beginConnect (env : ConnectEnv) (s : State) : State :=
  s |> set_inputContextRef (Some (env_inputContext env))
    |> set_audioContextRef (Some (env_outputContext env)).

(** [connectToLiveApi] from the point where [getUserMedia] has settled,
    lines 83-121. *)
Definition resumeConnect (r : Render) (env : ConnectEnv) (s : State) : State :=
  match env_getUserMedia env with
  | Some stream =>
      s |> set_streamRef (Some stream) |> set_callbacks (Some r) |> set_sessionRef true
  | None =>
      let message := match truthy (env_errorMessage env) with
                     | Some msg => msg
                     | None => "Failed to access microphone or connect to API."
                     end in
      s |> emit (ConsoleError "Connection failed:")
        |> set_error (Some message)
  end.

(** [handleServerMessage] up to its [await], lines 149-184: the state it
    leaves and the decode it waits for, if any. *)
Definition beginMessage (message : LiveServerMessage) (s : State)
    : State * option PendingDecode :=
  match serverContent message, audioContextRef s with
  | Some sc, Some ctx =>
      if interrupted sc then (handleInterruption s, None)
      else
        let s := s |> handleTranscripts sc in
        match base64Audio sc with
        | Some b64 =>
            let s := s |> set_isAiSpeaking true in
            let audioData := base64ToUint8Array b64 in
            (s, Some (mkPendingDecode ctx audioData))
        | None => (s, None)
        end
  | _, _ => (s, None)
  end.

(** [handleServerMessage] from the point where [decodeAudioData] has
    settled, lines 184-214; [currentTime] is what [ctx.currentTime] reads
    then. *)
Definition resumeDecode (p : PendingDecode) (currentTime : Q) (s : State) : State :=
  match decodeAudioData (pd_audioData p) (pd_ctx p) 24000 1 with
  | Some audioBuffer => scheduleBuffer audioBuffer currentTime s
  | None => s |> emit (ConsoleError "Error decoding audio")
  end.

(** The component together with its suspended handlers. *)
Record Async := mkAsync {
  core : State;
  decoding : list PendingDecode;               (* handlers waiting at line 184 *)
  connecting : option (Render * ConnectEnv)    (* the mount effect waiting at line 83 *)
}.

Inductive AsyncEvent :=
| Sync (e : Event)                       (* a turn of [step]: what the handler awaits
                                            settles before anything else runs *)
| MountBegins (env : ConnectEnv)         (* the mount effect, up to its [await] *)
| MediaSettles                           (* [getUserMedia] resolves or is rejected *)
| MessageArrives (message : LiveServerMessage)   (* [onmessage], up to the [await] *)
| DecodeSettles (i : nat) (currentTime : Q).     (* the [i]-th pending decode settles *)

Definition astep (a : Async) (e : AsyncEvent) : Async :=
  match e with
  | Sync e => mkAsync (step (core a) e) (decoding a) (connecting a)
  | MountBegins env =>
      mkAsync (beginConnect env (core a)) (decoding a) (Some (render (core a), env))
  | MediaSettles =>
      match connecting a with
      | Some (r, env) => mkAsync (resumeConnect r env (core a)) (decoding a) None
      | None => a
      end
  | MessageArrives message =>
      match callbacks (core a) with
      | Some _ =>
          let (s, pending) := beginMessage message (core a) in
          mkAsync s (decoding a ++ option_list pending) (connecting a)
      | None => a
      end
  | DecodeSettles i currentTime =>
      match decoding a !! i with
      | Some p =>
          mkAsync (resumeDecode p currentTime (core a)) (delete i (decoding a))
            (connecting a)
      | None => a
      end
  end.

Definition arun (a : Async) (tr : list AsyncEvent) : Async := fold_left astep tr a.

End Suspension.

(** A freshly rendered component: nothing is suspended. *)
Definition initialAsync : Async := mkAsync initialState [] None.

(** "AI is speaking" holds whenever a playback handle is active or a decode
    is pending. *)
Definition speaking_while_busy (a : Async) : Prop :=
  sourcesRef (core a) <> ∅ \/ decoding a <> [] -> isAiSpeaking (core a) = true.

(** [e] is not a turn-complete message without audio, and it does not clear
    the state behind a suspended handler: it is an interruption or the
    debounce callback only if no decode is pending. *)
Definition undisturbed (a : Async) (e : AsyncEvent) : Prop :=
  match e with
  | Sync (EvMessage message currentTime) =>
      ~ bare_turnComplete (EvMessage message currentTime) /\
      (no_interruption (EvMessage message currentTime) \/ decoding a = [])
  | MessageArrives message =>
      ~ bare_turnComplete (EvMessage message 0) /\
      (no_interruption (EvMessage message 0) \/ decoding a = [])
  | Sync EvTimeout => decoding a = []
  | _ => True
  end.

(** Every event of the run is [undisturbed] in the state it meets. *)
Fixpoint admissible {utils : AudioUtils} (a : Async) (tr : list AsyncEvent) : Prop :=
  match tr with
  | [] => True
  | e :: rest => undisturbed a e /\ admissible (astep a e) rest
  end.

(** The mount effect, in one turn or up to its [await]. *)
Definition is_remount (e : AsyncEvent) : bool :=
  match e with
  | Sync (EvMount _) | MountBegins _ => true
  | _ => false
  end.

(** Mounted and connected; two audio messages arrive, the decode of the
    first settles at clock time 1/2 while that of the second is pending. *)
Definition overlapTrace : list AsyncEvent :=
  [Sync (EvMount testEnv); Sync EvOpen;
   MessageArrives (audioMessage "abcd"); MessageArrives (audioMessage "efgh");
   DecodeSettles 0 (1 # 2)].

(** Mounted and connected; an interruption arrives while the decode of an
    audio message is pending; the decode settles afterwards. *)
Definition interruptedDecodeTrace : list AsyncEvent :=
  [Sync (EvMount testEnv); Sync EvOpen;
   MessageArrives (audioMessage "abcd"); MessageArrives interruptedMessage;
   DecodeSettles 0 (1 # 2)].

(** A buffer plays to its end and arms the debounce timer; the timer fires
    while the decode of the next buffer is pending; the decode settles
    afterwards. *)
Definition debounceDuringDecodeTrace : list AsyncEvent :=
  [Sync (EvMount testEnv); Sync EvOpen;
   MessageArrives (audioMessage "abcd"); DecodeSettles 0 (1 # 2);
   Sync (EvEnded 3);
   MessageArrives (audioMessage "efgh"); Sync EvTimeout; DecodeSettles 0 1].

(** The session is ended while the decode of an audio message is pending;
    the decode settles afterwards. *)
Definition lateDecodeTrace : list AsyncEvent :=
  [Sync (EvMount testEnv); Sync EvOpen;
   MessageArrives (audioMessage "abcd"); Sync EvEndSession;
   DecodeSettles 0 (1 # 2)].

(** The component is unmounted while the microphone request is pending; the
    request is granted afterwards. *)
Definition lateMediaTrace : list AsyncEvent :=
  [MountBegins testEnv; Sync EvUnmount; MediaSettles; Sync EvOpen].

(** ** The application shell ([src/App.tsx]) and the plan service *)

Module App.

(** [src/types.ts]. *)
Inductive AppMode := IDLE | ASSESSMENT | PRACTICE | GENERATING_PLAN.

Inductive Difficulty := Beginner | Intermediate | Advanced.

Record Scenario := mkScenario {
  scenario_id : string;
  title : string;
  description : string;
  difficulty : Difficulty;
  objective : string
}.

Record UserPlan := mkUserPlan {
  level : string;
  feedback : string;
  scenarios : list Scenario
}.

(** What [ai.models.generateContent] answers: the promise is rejected, or it
    resolves to a response whose [text] may be missing. *)
Inductive ApiOutcome :=
| ApiRejected
| ApiResponse (response_text : option string).

(** How [generateTrainingPlan] can fail: the rejection of the request, the
    [Error("Failed to generate plan")] it throws itself, the error thrown
    by [JSON.parse]. *)
Inductive PlanFailure := RequestRejected | FailedToGeneratePlan | ParseError.

Inductive PlanResult :=
| PlanOk (plan : UserPlan)
| PlanError (failure : PlanFailure).

(** The two prompts, lines 9 and 10 of the plan service. *)
Definition transcriptPrompt : string :=
  "Based on the following conversation transcript between an English tutor and a student, assess the student's level and create a study plan:"
  ++ newline ++ newline.

Definition beginnerPrompt : string :=
  "The user is a beginner English learner. Create a beginner study plan.".

(** [promptContext], lines 8-10 of the plan service.  A [string] is a
    sequence of 8-bit characters; for a transcript of ASCII text its length
    is the [transcript.length] of the source. *)
Definition promptContext (transcript : string) : string :=
  if (50 <? String.length transcript)%nat
  then transcriptPrompt ++ transcript
  else beginnerPrompt.

Section Service.
(** [JSON.parse(...) as UserPlan]: [None] when the text is not JSON.  The
    cast is not checked by the source; a text that is JSON but does not
    describe a plan ([null], for one) is outside this reading. *)
Variable JSON_parse : string -> option UserPlan.

(** [generateTrainingPlan], lines 4-45 of the plan service; [generateContent]
    is the answer of the model to the [contents] it is sent. *)
Definition generateTrainingPlan (generateContent : string -> ApiOutcome)
    (transcript : string) : PlanResult :=
  match generateContent (promptContext transcript) with
  | ApiRejected => PlanError RequestRejected
  | ApiResponse response_text =>
      match truthy response_text with
      | Some t =>
          match JSON_parse t with
          | Some plan => PlanOk plan
          | None => PlanError ParseError
          end
      | None => PlanError FailedToGeneratePlan
      end
  end.

(** The state cells of [App], lines 8-11, and what was passed to
    [console.error]. *)
Record AppState := mkApp {
  mode : AppMode;
  userPlan : option UserPlan;
  currentScenario : option Scenario;
  isGeneratingPlan : bool;
  console : list PlanFailure
}.

Definition setMode (v : AppMode) (a : AppState) : AppState :=
  mkApp v (userPlan a) (currentScenario a) (isGeneratingPlan a) (console a).

Definition setUserPlan (v : option UserPlan) (a : AppState) : AppState :=
  mkApp (mode a) v (currentScenario a) (isGeneratingPlan a) (console a).

Definition setCurrentScenario (v : option Scenario) (a : AppState) : AppState :=
  mkApp (mode a) (userPlan a) v (isGeneratingPlan a) (console a).

Definition setIsGeneratingPlan (v : bool) (a : AppState) : AppState :=
  mkApp (mode a) (userPlan a) (currentScenario a) v (console a).

Definition console_error (f : PlanFailure) (a : AppState) : AppState :=
  mkApp (mode a) (userPlan a) (currentScenario a) (isGeneratingPlan a)
    (console a ++ [f]).

Definition initialApp : AppState := mkApp IDLE None None false [].

(** The plan installed when the service fails, lines 49-57. *)
Definition fallbackPlan : UserPlan :=
  mkUserPlan "B1 (Intermediate)"
    "You have good basic vocabulary but struggle with complex sentence structures. Focus on past tense consistency."
    [mkScenario "1" "Ordering Coffee" "You are at a busy cafe in London."
       Beginner "Order a customized drink and ask for the price.";
     mkScenario "2" "Job Interview" "You are interviewing for a marketing role."
       Intermediate "Describe your strengths and previous experience.";
     mkScenario "3" "Returning an Item" "You bought a defective laptop."
       Advanced "Politely but firmly negotiate a refund without a receipt."].

(** [handleSessionEnd], lines 38-67, as a closure of a render in which the
    mode is [renderMode]; the [await] is taken in one step. *)
Definition handleSessionEnd (renderMode : AppMode)
    (generateContent : string -> ApiOutcome) (transcript : string)
    (a : AppState) : AppState :=
  match renderMode with
  | ASSESSMENT =>
      let a := a |> setMode GENERATING_PLAN |> setIsGeneratingPlan true in
      let a := match generateTrainingPlan generateContent transcript with
               | PlanOk plan => a |> setUserPlan (Some plan) |> setMode IDLE
               | PlanError failure =>
                   a |> console_error failure
                     |> setUserPlan (Some fallbackPlan)
                     |> setMode IDLE
               end in
      a |> setIsGeneratingPlan false
  | _ => a |> setMode IDLE |> setCurrentScenario None
  end.

(** [startPractice], lines 69-72. *)
Definition startPractice (scenario : Scenario) (a : AppState) : AppState :=
  a |> setCurrentScenario (Some scenario) |> setMode PRACTICE.

(** What the user can do; each control exists only where the render puts it
    (lines 98, 130, 134-148, 164 and 195). *)
Inductive AppEvent :=
| ClickAssessment                    (* "Start Level Assessment" / "Retake Assessment" *)
| ClickStartPractice (index : nat)   (* "Start Practice" on a scenario card *)
| SessionEnded (transcript : string) (generateContent : string -> ApiOutcome).

Definition appStep (a : AppState) (e : AppEvent) : AppState :=
  match e, mode a with
  | ClickAssessment, IDLE => a |> setMode ASSESSMENT
  | ClickStartPractice index, IDLE =>
      match userPlan a with
      | Some plan =>
          match scenarios plan !! index with
          | Some scenario => startPractice scenario a
          | None => a
          end
      | None => a
      end
  | SessionEnded transcript generateContent, (ASSESSMENT | PRACTICE) =>
      handleSessionEnd (mode a) generateContent transcript a
  | _, _ => a
  end.

Definition appRun (a : AppState) (tr : list AppEvent) : AppState :=
  fold_left appStep tr a.

End Service.

(** What every state of the application satisfies: in practice mode a
    scenario of the installed plan is selected, outside it none is; the
    application does not rest in the plan-generation mode. *)
Definition app_inv (a : AppState) : Prop :=
  (mode a = PRACTICE ->
   exists plan scenario,
     userPlan a = Some plan /\ currentScenario a = Some scenario /\
     scenario ∈ scenarios plan) /\
  (mode a <> PRACTICE -> currentScenario a = None) /\
  mode a <> GENERATING_PLAN /\
  isGeneratingPlan a = false.

End App.

(** * Verification *)

(** ** The log and the setters *)

Lemma string_app_assoc (a b c : string) :
  ((a ++ b) ++ c = a ++ (b ++ c))%string.
Proof.
  induction a as [|x a IH]; [done|].
  change (String x ((a ++ b) ++ c) = String x (a ++ (b ++ c)))%string.
  by rewrite IH.
Qed.

Lemma string_app_nil_r (a : string) : (a ++ "" = a)%string.
Proof.
  induction a as [|x a IH]; [done|].
  change (String x (a ++ "") = String x a)%string. by rewrite IH.
Qed.

Lemma emit_all_eq (es : list Effect) (s : State) :
  emit_all es s =
  mkState (isConnected s) (error s) (isMuted s) (isAiSpeaking s)
    (audioContextRef s) (inputContextRef s) (streamRef s) (processorRef s)
    (sourceRef s) (sessionRef s) (nextStartTimeRef s) (sourcesRef s)
    (transcriptRef s) (callbacks s) (timers s) (nextNode s) (effects s ++ es).
Proof.
  revert s. induction es as [|e es IH]; intros s; simpl.
  - rewrite app_nil_r. by destruct s.
  - rewrite IH. simpl. by rewrite <- app_assoc.
Qed.

Lemma cleanup_eq (s : State) :
  cleanup s =
  mkState (isConnected s) (error s) (isMuted s) (isAiSpeaking s)
    None None None None None
    (sessionRef s) (nextStartTimeRef s) ∅
    (transcriptRef s) (callbacks s) (timers s) (nextNode s)
    (effects s ++ releases s).
Proof.
  unfold cleanup, releases. rewrite !emit_all_eq.
  destruct s as [? ? ? ? oc ic st pr sr ? ? ? ? ? ? ? ?]; simpl.
  destruct pr, sr, st, ic, oc; simpl; rewrite ?emit_all_eq; simpl;
    f_equal; rewrite <- ?app_assoc; simpl; try done.
Qed.

Lemma handleInterruption_eq (s : State) :
  handleInterruption s =
  mkState (isConnected s) (error s) (isMuted s) false
    (audioContextRef s) (inputContextRef s) (streamRef s) (processorRef s)
    (sourceRef s) (sessionRef s) 0%Q ∅
    (transcriptRef s) (callbacks s) (timers s) (nextNode s)
    (effects s ++ map SourceStop (elements (sourcesRef s))).
Proof. unfold handleInterruption. by rewrite emit_all_eq. Qed.

(** ** Scheduling (lines 186-200) *)

Lemma scheduled_app (es1 es2 : list Effect) :
  scheduled (es1 ++ es2) = scheduled es1 ++ scheduled es2.
Proof. apply flat_map_app. Qed.

Lemma scheduled_SourceStop (hs : list Handle) : scheduled (map SourceStop hs) = [].
Proof. induction hs; simpl; auto. Qed.

Lemma scheduled_TrackStop (ts : list TrackId) : scheduled (map TrackStop ts) = [].
Proof. induction ts; simpl; auto. Qed.

Lemma scheduled_releases (s : State) : scheduled (releases s) = [].
Proof.
  unfold releases. rewrite !scheduled_app, scheduled_SourceStop.
  destruct (processorRef s), (sourceRef s), (streamRef s), (inputContextRef s),
    (audioContextRef s); simpl; rewrite ?scheduled_TrackStop; done.
Qed.

Lemma duration_nonneg (b : AudioBuffer) : (0 <= duration b)%Q.
Proof. unfold duration, Qle; simpl. lia. Qed.

Lemma chain_app (lo : Q) (l1 l2 : list (Q * Q)) :
  chain lo l1 -> chain (chain_end lo l1) l2 -> chain lo (l1 ++ l2).
Proof.
  revert lo. induction l1 as [|[t d] r IH]; intros lo; simpl; [done|].
  intros (Ht & Hd & Hr) H2. repeat split; try done. by apply IH.
Qed.

Lemma chain_weaken (lo lo' : Q) (l : list (Q * Q)) :
  (lo' <= lo)%Q -> chain lo l -> chain lo' l.
Proof.
  destruct l as [|[t d] r]; simpl; [done|].
  intros Hle (Ht & Hd & Hr). repeat split; try done. lra.
Qed.

Lemma chain_end_app (lo : Q) (l1 l2 : list (Q * Q)) :
  chain_end lo (l1 ++ l2) = chain_end (chain_end lo l1) l2.
Proof.
  revert lo. induction l1 as [|[t d] r IH]; intros lo; simpl; [done|]. apply IH.
Qed.

Lemma chain_end_mono (lo lo' : Q) (l : list (Q * Q)) :
  (lo <= lo')%Q -> (chain_end lo l <= chain_end lo' l)%Q.
Proof. destruct l as [|[t d] r]; simpl; [done|]. intros _. lra. Qed.

Lemma chain_consecutive (lo : Q) (l : list (Q * Q)) (i : nat) (a b : Q * Q) :
  chain lo l -> l !! i = Some a -> l !! S i = Some b ->
  (fst a <= fst b)%Q /\ (fst a + snd a <= fst b)%Q.
Proof.
  revert lo i. induction l as [|[t d] r IH]; intros lo i; [done|].
  simpl. intros (Ht & Hd & Hr). destruct i as [|i]; simpl.
  - intros [= <-]. destruct r as [|[t' d'] r']; [done|]. simpl in *.
    intros [= <-]. simpl. destruct Hr as (Ht' & _). split; lra.
  - intros Ha Hb. by apply (IH _ i Hr).
Qed.

Section Scheduling.
Context {utils : AudioUtils}.

(** The start time chosen by [scheduleBuffer]: [nextStartTime], or the
    clock when [nextStartTime] is in the past. *)
Lemma scheduleBuffer_spec (b : AudioBuffer) (now : Q) (s : State) :
  let start := if negb (Qle_bool now (nextStartTimeRef s)) then now
               else nextStartTimeRef s in
  effects (scheduleBuffer b now s) = effects s ++ [SourceStart (nextNode s) start b] /\
  nextStartTimeRef (scheduleBuffer b now s) = (start + duration b)%Q /\
  sourcesRef (scheduleBuffer b now s) = {[nextNode s]} ∪ sourcesRef s /\
  (nextStartTimeRef s <= start)%Q /\ (now <= start)%Q.
Proof.
  unfold scheduleBuffer. destruct (Qle_bool now (nextStartTimeRef s)) eqn:E; simpl.
  - apply Qle_bool_iff in E. repeat split; try done. lra.
  - assert (~ (now <= nextStartTimeRef s)%Q) as Hn.
    { intros Hle. apply Qle_bool_iff in Hle. congruence. }
    apply Qnot_le_lt in Hn. repeat split; try done; lra.
Qed.

Lemma handleTranscripts_eq (sc : ServerContent) (s : State) :
  handleTranscripts sc s =
  mkState (isConnected s) (error s) (isMuted s)
    (if modelTurn_turnComplete sc then false else isAiSpeaking s)
    (audioContextRef s) (inputContextRef s) (streamRef s) (processorRef s)
    (sourceRef s) (sessionRef s) (nextStartTimeRef s) (sourcesRef s)
    (transcriptRef s ++ transcriptLines sc) (callbacks s) (timers s)
    (nextNode s) (effects s).
Proof.
  unfold handleTranscripts, transcriptLines.
  destruct s; simpl.
  destruct (modelTurn_turnComplete sc), (inputTranscription_text sc),
    (outputTranscription_text sc); simpl;
    f_equal; rewrite ?string_app_assoc, ?string_app_nil_r; done.
Qed.

Lemma handleServerMessage_chain (m : LiveServerMessage) (now : Q) (s : State) :
  no_interruption (EvMessage m now) ->
  exists new,
    scheduled (effects (handleServerMessage m now s)) = scheduled (effects s) ++ new /\
    chain (nextStartTimeRef s) new /\
    (chain_end (nextStartTimeRef s) new <= nextStartTimeRef (handleServerMessage m now s))%Q.
Proof.
  unfold no_interruption, handleServerMessage.
  destruct (serverContent m) as [sc|]; [|intros _; exists []; rewrite app_nil_r; simpl; split_and!; [done..|lra]].
  destruct (audioContextRef s) as [ctx|] eqn:Hctx; [|intros _; exists []; rewrite app_nil_r; simpl; split_and!; [done..|lra]].
  intros ->. rewrite handleTranscripts_eq. unfold handleAudioOutput.
  destruct (base64Audio sc) as [b64|].
  2:{ exists []. rewrite app_nil_r. simpl. split_and!; try done; lra. }
  destruct (decodeAudioData (base64ToUint8Array b64) ctx 24000 1) as [buf|].
  2:{ exists []. simpl. rewrite scheduled_app. simpl. split_and!; try done; lra. }
  match goal with |- context [scheduleBuffer buf now ?s0] => set (s1 := s0) end.
  destruct (scheduleBuffer_spec buf now s1) as (He & Hn & _ & Hlo & _).
  eexists [(_, duration buf)]. rewrite He, Hn, scheduled_app.
  change (nextStartTimeRef s1) with (nextStartTimeRef s) in *.
  change (effects s1) with (effects s). simpl.
  split_and!; try done.
  - apply duration_nonneg.
  - lra.
Qed.

Lemma step_chain (s : State) (e : Event) :
  no_interruption e ->
  exists new,
    scheduled (effects (step s e)) = scheduled (effects s) ++ new /\
    chain (nextStartTimeRef s) new /\
    (chain_end (nextStartTimeRef s) new <= nextStartTimeRef (step s e))%Q.
Proof.
  intros He.
  assert (forall s' : State,
    scheduled (effects s') = scheduled (effects s) ->
    nextStartTimeRef s' = nextStartTimeRef s ->
    exists new, scheduled (effects s') = scheduled (effects s) ++ new /\
      chain (nextStartTimeRef s) new /\
      (chain_end (nextStartTimeRef s) new <= nextStartTimeRef s')%Q) as Hsame.
  { intros s' E1 E2. exists []. rewrite app_nil_r, E2. simpl. split_and!; try done; lra. }
  destruct e as [env| |m now| | |w|h| | | |]; cbn [step].
  - apply Hsame; unfold connectToLiveApi; destruct (env_getUserMedia env); simpl;
      rewrite ?scheduled_app, ?app_nil_r; done.
  - destruct (callbacks s); apply Hsame; try done;
      unfold onopen, startAudioInput; simpl; destruct (inputContextRef s); done.
  - destruct (callbacks s); [by apply handleServerMessage_chain | by apply Hsame].
  - destruct (callbacks s); by apply Hsame.
  - destruct (callbacks s); apply Hsame; try done.
    simpl. by rewrite scheduled_app, app_nil_r.
  - destruct (processorRef s) as [p|]; apply Hsame; try done;
      unfold onaudioprocess; destruct (r_isMuted _); simpl;
      rewrite ?scheduled_app, ?app_nil_r; done.
  - apply Hsame; unfold onended; simpl; case_decide; simpl;
      rewrite ?scheduled_app, ?app_nil_r; done.
  - destruct (timers s); apply Hsame; try done;
      unfold debounceElapsed; simpl; case_decide; done.
  - by apply Hsame.
  - apply Hsame; unfold handleEndSession; rewrite cleanup_eq; simpl;
      rewrite ?scheduled_app, ?scheduled_releases, ?app_nil_r; done.
  - apply Hsame; rewrite cleanup_eq; simpl;
      rewrite ?scheduled_app, ?scheduled_releases, ?app_nil_r; done.
Qed.

Lemma run_chain (tr : list Event) (s : State) :
  Forall no_interruption tr ->
  exists new,
    scheduled (effects (run s tr)) = scheduled (effects s) ++ new /\
    chain (nextStartTimeRef s) new /\
    (chain_end (nextStartTimeRef s) new <= nextStartTimeRef (run s tr))%Q.
Proof.
  revert s. induction tr as [|e tr IH]; intros s Hall.
  - exists []. simpl. rewrite app_nil_r. split_and!; try done; lra.
  - apply Forall_cons in Hall as [He Htr]. simpl.
    destruct (step_chain s e He) as (n1 & E1 & C1 & L1).
    destruct (IH (step s e) Htr) as (n2 & E2 & C2 & L2).
    exists (n1 ++ n2). unfold run in *. rewrite E2, E1, <- app_assoc. split_and!; [done| |].
    + apply chain_app; [done|]. by apply (chain_weaken (nextStartTimeRef (step s e))).
    + rewrite chain_end_app.
      destruct n2 as [|[t d] r]; simpl in *; lra.
Qed.

(** A message whose audio decodes is scheduled at [nextStartTime], or at the
    clock when [nextStartTime] is in the past. *)
Lemma handleServerMessage_schedules (s0 : State) (m : LiveServerMessage) (now : Q)
    (sc : ServerContent) (ctx : CtxId) (b64 : string) (buf : AudioBuffer) :
  serverContent m = Some sc -> interrupted sc = false ->
  audioContextRef s0 = Some ctx -> base64Audio sc = Some b64 ->
  decodeAudioData (base64ToUint8Array b64) ctx 24000 1 = Some buf ->
  let start := if negb (Qle_bool now (nextStartTimeRef s0)) then now
               else nextStartTimeRef s0 in
  effects (handleServerMessage m now s0) =
    effects s0 ++ [SourceStart (nextNode s0) start buf] /\
  nextStartTimeRef (handleServerMessage m now s0) = (start + duration buf)%Q /\
  sourcesRef (handleServerMessage m now s0) = {[nextNode s0]} ∪ sourcesRef s0 /\
  isAiSpeaking (handleServerMessage m now s0) = true.
Proof.
  intros Hsc Hint Hctx Hb64 Hdec.
  unfold handleServerMessage. rewrite Hsc, Hctx, Hint, handleTranscripts_eq.
  unfold handleAudioOutput. rewrite Hb64, Hdec.
  match goal with |- context [scheduleBuffer buf now ?s0] => set (s1 := s0) end.
  destruct (scheduleBuffer_spec buf now s1) as (He & Hn & Hs & _).
  rewrite He, Hn, Hs. split_and!; try done.
  unfold s1, scheduleBuffer. by destruct (negb _).
Qed.

End Scheduling.

Section SchedulingClaims.
Context {utils : AudioUtils}.

(** C1. For every sequence of events without an interruption, the buffers
    scheduled during the run have non-decreasing start times and each starts
    no earlier than the previous start plus the previous duration; a decoded
    buffer is started at [nextStartTime], reset to the clock when it lies in
    the past, and [nextStartTime] then advances by exactly its duration. *)
Theorem C1_schedule_gap_free (tr : list Event) (s : State) :
  Forall no_interruption tr ->
  (exists new,
     scheduled (effects (run s tr)) = scheduled (effects s) ++ new /\
     forall i a b, new !! i = Some a -> new !! S i = Some b ->
       (fst a <= fst b)%Q /\ (fst a + snd a <= fst b)%Q) /\
  (forall (s0 : State) m now sc ctx b64 buf,
     serverContent m = Some sc -> interrupted sc = false ->
     audioContextRef s0 = Some ctx -> base64Audio sc = Some b64 ->
     decodeAudioData (base64ToUint8Array b64) ctx 24000 1 = Some buf ->
     let start := if negb (Qle_bool now (nextStartTimeRef s0)) then now
                  else nextStartTimeRef s0 in
     effects (handleServerMessage m now s0) =
       effects s0 ++ [SourceStart (nextNode s0) start buf] /\
     nextStartTimeRef (handleServerMessage m now s0) = (start + duration buf)%Q).
Proof.
  intros Hall. split.
  - destruct (run_chain tr s Hall) as (new & E & C & _).
    exists new. split; [done|]. intros i a b. by apply chain_consecutive with (lo := nextStartTimeRef s).
  - intros s0 m now sc ctx b64 buf Hsc Hint Hctx Hb64 Hdec.
    destruct (handleServerMessage_schedules s0 m now sc ctx b64 buf) as (He & Hn & _);
      done.
Qed.

End SchedulingClaims.

Lemma C1_schedule_gap_free_witness :
  Forall no_interruption playingTrace /\
  exists new,
    scheduled (effects (run (utils := testUtils) initialState playingTrace)) =
      scheduled (effects initialState) ++ new /\
    forall i a b, new !! i = Some a -> new !! S i = Some b ->
      (fst a <= fst b)%Q /\ (fst a + snd a <= fst b)%Q.
Proof.
  assert (Forall no_interruption playingTrace) as Hall by (repeat constructor).
  split; [exact Hall|].
  exact (proj1 (C1_schedule_gap_free (utils := testUtils) playingTrace initialState Hall)).
Defined.

(** ** Interruption (lines 153-162) *)

Lemma elem_of_SourceStop (h : Handle) (hs : list Handle) :
  h ∈ hs -> SourceStop h ∈ map SourceStop hs.
Proof. intros Hin. apply list_elem_of_fmap. by exists h. Qed.

Section InterruptionClaims.
Context {utils : AudioUtils}.

(** C2 (amended). In every state in which the output audio context is set,
    a message flagged [interrupted] stops every handle of the active set,
    empties the set, resets [nextStartTime] to zero and clears the
    "AI is speaking" state in the same transition, without arming a debounce
    timer. *)
Theorem C2_interruption_clears_playback (s : State) (m : LiveServerMessage)
    (now : Q) (sc : ServerContent) (ctx : CtxId) :
  serverContent m = Some sc -> interrupted sc = true ->
  audioContextRef s = Some ctx ->
  let s' := handleServerMessage m now s in
  effects s' = effects s ++ map SourceStop (elements (sourcesRef s)) /\
  (forall h, h ∈ sourcesRef s -> SourceStop h ∈ effects s') /\
  sourcesRef s' = ∅ /\
  nextStartTimeRef s' = 0%Q /\
  isAiSpeaking s' = false /\
  timers s' = timers s.
Proof.
  intros Hsc Hint Hctx. unfold handleServerMessage.
  rewrite Hsc, Hctx, Hint, handleInterruption_eq. simpl.
  split_and!; try done.
  intros h Hh. apply elem_of_app. right.
  apply elem_of_SourceStop. by apply elem_of_elements.
Qed.

(** C10. A message flagged [interrupted] is handled as the interruption
    alone, whatever else it carries: the transcript is left as it was,
    nothing is scheduled, no source node is created, the log grows by stop
    calls only, and the outcome is that of the bare interruption message. *)
Theorem C10_interrupted_message_payload_discarded (s : State)
    (m : LiveServerMessage) (now : Q) (sc : ServerContent) :
  serverContent m = Some sc -> interrupted sc = true ->
  let s' := handleServerMessage m now s in
  s' = handleServerMessage interruptedMessage now s /\
  transcriptRef s' = transcriptRef s /\
  scheduled (effects s') = scheduled (effects s) /\
  nextNode s' = nextNode s /\
  (exists hs, effects s' = effects s ++ map SourceStop hs) /\
  (forall ctx, audioContextRef s = Some ctx -> sourcesRef s' = ∅).
Proof.
  intros Hsc Hint. unfold handleServerMessage. rewrite Hsc, Hint. simpl.
  destruct (audioContextRef s) as [ctx|].
  - rewrite handleInterruption_eq. simpl.
    rewrite scheduled_app, scheduled_SourceStop, app_nil_r.
    split_and!; try done. by eexists.
  - split_and!; try done. exists []. by rewrite app_nil_r.
Qed.

End InterruptionClaims.

Lemma C2_interruption_clears_playback_witness :
  let s := run (utils := testUtils) initialState playingTrace in
  (serverContent interruptedMessage = Some (mkServerContent true None None None) /\
   interrupted (mkServerContent true None None None) = true /\
   audioContextRef s = Some 2%positive) /\
  sourcesRef (handleServerMessage (utils := testUtils) interruptedMessage 1 s) = ∅ /\
  nextStartTimeRef (handleServerMessage (utils := testUtils) interruptedMessage 1 s) = 0%Q.
Proof.
  intros s.
  assert (audioContextRef s = Some 2%positive) as Hctx by (vm_compute; reflexivity).
  split; [split_and!; [reflexivity | reflexivity | exact Hctx]|].
  pose proof (C2_interruption_clears_playback (utils := testUtils) s
                interruptedMessage 1 _ _ eq_refl eq_refl Hctx) as (_ & _ & H1 & H2 & _).
  split; [exact H1 | exact H2].
Defined.

(** The claim C2 as stated fails once [cleanup] has run: the handler returns
    at its guard on the output context and [nextStartTime] keeps its value. *)
Lemma C2_counterexample :
  let s := run (utils := testUtils) initialState endedTrace in
  let s' := handleServerMessage (utils := testUtils) interruptedMessage 1 s in
  audioContextRef s = None /\
  s' = s /\
  ~ (nextStartTimeRef s' == 0)%Q /\
  isAiSpeaking s' = true.
Proof.
  vm_compute. split_and!; try reflexivity. intros H; discriminate H.
Qed.

Lemma C10_interrupted_message_payload_discarded_witness :
  let m := loadedInterruption "hello" "abcd" in
  let s := run (utils := testUtils) initialState playingTrace in
  (exists sc, serverContent m = Some sc /\ interrupted sc = true) /\
  transcriptRef (handleServerMessage (utils := testUtils) m 1 s) = transcriptRef s /\
  scheduled (effects (handleServerMessage (utils := testUtils) m 1 s)) =
    scheduled (effects s).
Proof.
  intros m s. split; [eexists; split; reflexivity|].
  pose proof (C10_interrupted_message_payload_discarded (utils := testUtils) s m 1 _
                eq_refl eq_refl) as (_ & H1 & H2 & _).
  split; [exact H1 | exact H2].
Defined.

(** ** Decode failures (lines 183-214) *)

Section DecodeClaims.
Context {utils : AudioUtils}.

(** C6. When [decodeAudioData] throws on the audio of a message, the error
    is logged and nothing else is asked of the platform; [nextStartTime] and
    the active set keep their values; the connection state, the error state,
    the audio contexts, the stream, the capture nodes and the connection
    callbacks are untouched; and a later message whose audio decodes is
    scheduled from the unchanged [nextStartTime]. *)
Theorem C6_decode_failure_skips_buffer (s : State) (m : LiveServerMessage)
    (now : Q) (sc : ServerContent) (ctx : CtxId) (b64 : string) :
  serverContent m = Some sc -> interrupted sc = false ->
  audioContextRef s = Some ctx -> base64Audio sc = Some b64 ->
  decodeAudioData (base64ToUint8Array b64) ctx 24000 1 = None ->
  let s' := handleServerMessage m now s in
  effects s' = effects s ++ [ConsoleError "Error decoding audio"] /\
  nextStartTimeRef s' = nextStartTimeRef s /\
  sourcesRef s' = sourcesRef s /\
  (isConnected s' = isConnected s /\ error s' = error s /\
   audioContextRef s' = audioContextRef s /\
   inputContextRef s' = inputContextRef s /\ streamRef s' = streamRef s /\
   processorRef s' = processorRef s /\ sourceRef s' = sourceRef s /\
   sessionRef s' = sessionRef s /\ callbacks s' = callbacks s) /\
  (forall m2 now2 sc2 b642 buf2,
     serverContent m2 = Some sc2 -> interrupted sc2 = false ->
     base64Audio sc2 = Some b642 ->
     decodeAudioData (base64ToUint8Array b642) ctx 24000 1 = Some buf2 ->
     let start := if negb (Qle_bool now2 (nextStartTimeRef s)) then now2
                  else nextStartTimeRef s in
     effects (handleServerMessage m2 now2 s') =
       effects s' ++ [SourceStart (nextNode s) start buf2] /\
     nextStartTimeRef (handleServerMessage m2 now2 s') = (start + duration buf2)%Q /\
     sourcesRef (handleServerMessage m2 now2 s') = {[nextNode s]} ∪ sourcesRef s).
Proof.
  intros Hsc Hint Hctx Hb64 Hdec s'.
  assert (s' = emit (ConsoleError "Error decoding audio")
                 (set_isAiSpeaking true (handleTranscripts sc s))) as Hs'.
  { unfold s', handleServerMessage. rewrite Hsc, Hctx, Hint.
    unfold handleAudioOutput. by rewrite Hb64, Hdec. }
  rewrite handleTranscripts_eq in Hs'. rewrite Hs'. simpl.
  split_and!; try done.
  intros m2 now2 sc2 b642 buf2 Hsc2 Hint2 Hb642 Hdec2.
  match goal with |- context [handleServerMessage m2 now2 ?s0] => set (s1 := s0) end.
  destruct (handleServerMessage_schedules s1 m2 now2 sc2 ctx b642 buf2)
    as (He & Hn & Hs & _); try done.
Qed.

End DecodeClaims.

Lemma C6_decode_failure_skips_buffer_witness :
  let s := run (utils := testUtils) initialState playingTrace in
  let m := audioMessage "abc" in
  (exists sc ctx b64,
     serverContent m = Some sc /\ interrupted sc = false /\
     audioContextRef s = Some ctx /\ base64Audio sc = Some b64 /\
     decodeAudioData (AudioUtils := testUtils)
       (base64ToUint8Array (AudioUtils := testUtils) b64) ctx 24000 1 = None) /\
  nextStartTimeRef (handleServerMessage (utils := testUtils) m 1 s) = nextStartTimeRef s /\
  sourcesRef (handleServerMessage (utils := testUtils) m 1 s) = sourcesRef s.
Proof.
  intros s m.
  assert (audioContextRef s = Some 2%positive) as Hctx by (vm_compute; reflexivity).
  split.
  - eexists _, _, _. split_and!; [reflexivity | reflexivity | exact Hctx | reflexivity | reflexivity].
  - pose proof (C6_decode_failure_skips_buffer (utils := testUtils) s m 1 _ _ _
                  eq_refl eq_refl Hctx eq_refl eq_refl) as (_ & H1 & H2 & _).
    split; [exact H1 | exact H2].
Defined.

(** ** Teardown (lines 42-70 and 218-221) *)

Lemma released_app (es1 es2 : list Effect) :
  released (es1 ++ es2) = released es1 ++ released es2.
Proof. apply List.filter_app. Qed.

Lemma released_SourceStop (hs : list Handle) :
  released (map SourceStop hs) = map SourceStop hs.
Proof. unfold released. induction hs as [|h hs IH]; simpl; [done|]. by rewrite IH. Qed.

Lemma released_TrackStop (ts : list TrackId) :
  released (map TrackStop ts) = map TrackStop ts.
Proof. unfold released. induction ts as [|t ts IH]; simpl; [done|]. by rewrite IH. Qed.

Lemma released_releases (s : State) : released (releases s) = releases s.
Proof.
  unfold releases. rewrite !released_app, released_SourceStop.
  destruct (processorRef s), (sourceRef s), (streamRef s), (inputContextRef s),
    (audioContextRef s); rewrite ?released_TrackStop; done.
Qed.

Lemma elem_of_held {A : Type} (r : option A) (f : A -> list Effect) (e : Effect) :
  e ∈ match r with Some x => f x | None => [] end <-> exists x, r = Some x /\ e ∈ f x.
Proof.
  destruct r as [x|]; split.
  - intros He. by exists x.
  - by intros (y & [= <-] & He).
  - by intros He%elem_of_nil.
  - by intros (y & [=] & _).
Qed.

Lemma owns_releases (s : State) (e : Effect) : owns s e <-> e ∈ releases s.
Proof.
  unfold owns, releases. rewrite !elem_of_app, !elem_of_held.
  setoid_rewrite list_elem_of_singleton. setoid_rewrite list_elem_of_fmap.
  setoid_rewrite elem_of_elements.
  destruct e; naive_solver.
Qed.

Lemma NoDup_map_inj {A B : Type} (f : A -> B) (l : list A) :
  (forall x y, f x = f y -> x = y) -> NoDup l -> NoDup (map f l).
Proof.
  intros Hinj. induction 1 as [|x l Hx Hl IH]; simpl; constructor; [|done].
  intros Hin. apply list_elem_of_fmap in Hin as (y & Heq & Hy).
  apply Hinj in Heq. by subst.
Qed.

Lemma NoDup_releases (s : State) : distinct_resources s -> NoDup (releases s).
Proof.
  intros (Hnode & Htracks & Hctx). unfold releases.
  assert (NoDup (map SourceStop (elements (sourcesRef s)))) as Hsrc.
  { apply NoDup_map_inj; [by intros x y [= ->]|]. apply NoDup_elements. }
  destruct (processorRef s) as [p|], (sourceRef s) as [n|], (streamRef s) as [tr|],
    (inputContextRef s) as [c1|], (audioContextRef s) as [c2|]; simpl;
    repeat match goal with
    | |- NoDup (_ :: _) => apply NoDup_cons; split
    | |- NoDup (map TrackStop _ ++ _) => apply NoDup_app; split_and!
    | |- NoDup (map TrackStop _) => apply NoDup_map_inj; [by intros x y [= ->]|by apply Htracks]
    | |- NoDup [] => apply NoDup_nil_2
    | |- NoDup (map SourceStop _) => exact Hsrc
    end;
    try (set_unfold; naive_solver).
Qed.

Section TeardownClaims.
Context {utils : AudioUtils}.

Lemma releases_cleared (s : State) :
  processorRef s = None -> sourceRef s = None -> streamRef s = None ->
  inputContextRef s = None -> audioContextRef s = None -> sourcesRef s = ∅ ->
  releases s = [].
Proof.
  intros H1 H2 H3 H4 H5 H6. unfold releases.
  by rewrite H1, H2, H3, H4, H5, H6, elements_empty.
Qed.

Lemma exit_step (s : State) (e : Event) :
  exit_event e ->
  released (effects (step s e)) = released (effects s) ++ releases s /\
  releases (step s e) = [] /\
  processorRef (step s e) = None /\ sourceRef (step s e) = None /\
  streamRef (step s e) = None /\ inputContextRef (step s e) = None /\
  audioContextRef (step s e) = None /\ sourcesRef (step s e) = ∅.
Proof.
  intros He.
  assert (released (effects (step s e)) = released (effects s) ++ releases s /\
          processorRef (step s e) = None /\ sourceRef (step s e) = None /\
          streamRef (step s e) = None /\ inputContextRef (step s e) = None /\
          audioContextRef (step s e) = None /\ sourcesRef (step s e) = ∅)
    as (E & R1 & R2 & R3 & R4 & R5 & R6).
  { destruct He as [-> | ->]; cbn [step]; unfold handleEndSession; rewrite cleanup_eq;
      cbn [effects emit processorRef sourceRef streamRef inputContextRef
           audioContextRef sourcesRef isConnected error isMuted isAiSpeaking
           sessionRef nextStartTimeRef transcriptRef callbacks timers nextNode];
      rewrite ?released_app, released_releases; cbn [released List.filter isRelease];
      rewrite ?app_nil_r; by split_and!. }
  split_and!; try done. by apply releases_cleared.
Qed.

Lemma exit_run (exits : list Event) (s : State) :
  Forall exit_event exits -> exits <> [] ->
  released (effects (run s exits)) = released (effects s) ++ releases s /\
  releases (run s exits) = [] /\
  processorRef (run s exits) = None /\ sourceRef (run s exits) = None /\
  streamRef (run s exits) = None /\ inputContextRef (run s exits) = None /\
  audioContextRef (run s exits) = None /\ sourcesRef (run s exits) = ∅.
Proof.
  revert s. induction exits as [|e exits IH]; intros s Hall Hne; [done|].
  apply Forall_cons in Hall as [He Hall].
  destruct (exit_step s e He) as (E1 & E2 & E3 & E4 & E5 & E6 & E7 & E8).
  change (run s (e :: exits)) with (run (step s e) exits).
  destruct exits as [|e' exits']; [cbn [run fold_left]; by split_and!|].
  destruct (IH (step s e) Hall) as (F1 & F2); [done|].
  rewrite F1, E1, E2, app_nil_r. by split.
Qed.

(** The refs hold different objects in every state the component reaches. *)
Lemma distinct_resources_step (s : State) (e : Event) :
  fresh_resources e -> distinct_resources s -> distinct_resources (step s e).
Proof.
  intros He Hs.
  assert (forall s' : State,
    processorRef s' = processorRef s -> sourceRef s' = sourceRef s ->
    streamRef s' = streamRef s -> inputContextRef s' = inputContextRef s ->
    audioContextRef s' = audioContextRef s -> distinct_resources s') as Hsame.
  { intros s' E1 E2 E3 E4 E5. unfold distinct_resources.
    rewrite E1, E2, E3, E4, E5. exact Hs. }
  assert (forall s' : State,
    processorRef s' = None -> streamRef s' = None -> inputContextRef s' = None ->
    distinct_resources s') as Hnone.
  { intros s' E1 E2 E3. unfold distinct_resources. rewrite E1, E2, E3. by split_and!. }
  destruct e; cbn [step].
  - destruct He as [Hctx Htr]. destruct Hs as (Hn & _ & _).
    unfold connectToLiveApi. destruct (env_getUserMedia env) as [stream|] eqn:E.
    + split_and!; simpl; [exact Hn| |].
      * intros tracks [= <-]. by apply Htr.
      * by intros c1 c2 [= <-] [= <-].
    + split_and!; simpl; [exact Hn| |].
      * apply (proj1 (proj2 (Hsame s eq_refl eq_refl eq_refl eq_refl eq_refl))).
      * by intros c1 c2 [= <-] [= <-].
  - destruct (callbacks s); [|done]. unfold onopen, startAudioInput. simpl.
    destruct (inputContextRef s) as [ic|] eqn:E; [|by apply Hsame].
    destruct Hs as (_ & Htr & Hctx). split_and!; simpl.
    + intros p n [= <-] [= <-]. simpl. lia.
    + exact Htr.
    + first [exact Hctx | rewrite E; exact Hctx].
  - destruct (callbacks s); [|done]. unfold handleServerMessage.
    destruct (serverContent message) as [sc|]; [|done].
    destruct (audioContextRef s) as [ctx|] eqn:Ectx; [|done].
    destruct (interrupted sc); [rewrite handleInterruption_eq; by apply Hsame|].
    rewrite handleTranscripts_eq. unfold handleAudioOutput.
    destruct (base64Audio sc); [|by apply Hsame].
    destruct (decodeAudioData _ _ _ _); [|by apply Hsame].
    unfold scheduleBuffer. destruct (negb _); by apply Hsame.
  - destruct (callbacks s); by apply Hsame.
  - destruct (callbacks s); by apply Hsame.
  - destruct (processorRef s) as [p|] eqn:E; [|done].
    unfold onaudioprocess. destruct (r_isMuted _); by apply Hsame.
  - unfold onended. simpl. case_decide; by apply Hsame.
  - destruct (timers s); [done|]. unfold debounceElapsed. simpl.
    case_decide; by apply Hsame.
  - by apply Hsame.
  - unfold handleEndSession. rewrite cleanup_eq. by apply Hnone.
  - rewrite cleanup_eq. by apply Hnone.
Qed.

Lemma distinct_resources_run (tr : list Event) :
  Forall fresh_resources tr -> distinct_resources (run initialState tr).
Proof.
  assert (forall s, Forall fresh_resources tr -> distinct_resources s ->
                    distinct_resources (run s tr)) as Hgen.
  { induction tr as [|e tr IH]; intros s Hall Hs; [done|].
    apply Forall_cons in Hall as [He Hall]. apply IH; [done|].
    by apply distinct_resources_step. }
  intros Hall. apply Hgen; [done|]. by split_and!.
Qed.

(** C4. Two exits in succession, each of them the end-session button or the
    unmount, and any number of further ones: the second [cleanup] changes
    nothing and so calls nothing on a released resource; the release calls
    made are one call for each resource the refs held, no call twice, and
    nothing else; afterwards every ref is cleared and the active set is
    empty. *)
Theorem C4_cleanup_idempotent (s : State) (e1 e2 : Event) (more : list Event) :
  exit_event e1 -> exit_event e2 -> Forall exit_event more ->
  distinct_resources s ->
  cleanup (cleanup s) = cleanup s /\
  (exists calls,
     released (effects (run s (e1 :: e2 :: more))) = released (effects s) ++ calls /\
     NoDup calls /\
     forall e, owns s e <-> e ∈ calls) /\
  (let s' := run s (e1 :: e2 :: more) in
   processorRef s' = None /\ sourceRef s' = None /\ streamRef s' = None /\
   inputContextRef s' = None /\ audioContextRef s' = None /\ sourcesRef s' = ∅).
Proof.
  intros H1 H2 Hmore Hwf.
  assert (Forall exit_event (e1 :: e2 :: more)) as Hall
    by (by do 2 (constructor; [done|])).
  split_and!.
  - rewrite (cleanup_eq (cleanup s)).
    rewrite (releases_cleared (cleanup s)), app_nil_r by (by rewrite cleanup_eq).
    rewrite (cleanup_eq s). reflexivity.
  - destruct (exit_run (e1 :: e2 :: more) s) as (E & _); [done..|].
    exists (releases s). split_and!; [done|by apply NoDup_releases|].
    intros e. apply owns_releases.
  - destruct (exit_run (e1 :: e2 :: more) s) as (_ & _ & E); [done..|].
    exact E.
Qed.

End TeardownClaims.

Lemma C4_cleanup_idempotent_witness :
  let s := run (utils := testUtils) initialState playingTrace in
  (exit_event EvEndSession /\ exit_event EvUnmount /\
   Forall exit_event [EvUnmount] /\ distinct_resources s) /\
  cleanup (cleanup s) = cleanup s /\
  released (effects (run (utils := testUtils) s [EvEndSession; EvUnmount; EvUnmount])) =
    [NodeDisconnect 2; NodeDisconnect 1; TrackStop 7; ContextClose 1;
     ContextClose 2; SourceStop 3; SourceStop 4].
Proof.
  intros s.
  assert (exit_event EvEndSession) as H1 by (by left).
  assert (exit_event EvUnmount) as H2 by (by right).
  assert (Forall exit_event [EvUnmount]) as H3 by (by repeat constructor).
  assert (distinct_resources s) as H4.
  { split_and!.
    - intros p n [= <-] [= <-]. vm_compute. discriminate.
    - intros tracks [= <-]. vm_compute. apply NoDup_singleton.
    - intros c1 c2 [= <-] [= <-]. discriminate. }
  split; [by split_and!|].
  destruct (C4_cleanup_idempotent (utils := testUtils) s EvEndSession EvUnmount
              [EvUnmount] H1 H2 H3 H4) as (Hid & _ & _).
  split; [exact Hid|]. vm_compute. reflexivity.
Defined.

(** ** Transcript (lines 164-174) *)

Lemma splitLines_line (a rest : string) :
  noNewline a = true ->
  splitLines (a ++ newline ++ rest)%string = a :: splitLines rest.
Proof.
  induction a as [|c a IH]; intros Hnl; [done|].
  simpl in Hnl. apply andb_true_iff in Hnl as [Hc Ha].
  change (splitLines (String c (a ++ newline ++ rest)%string) = String c a :: splitLines rest).
  cbn [splitLines]. apply negb_true_iff in Hc. rewrite Hc, (IH Ha). done.
Qed.

Lemma noNewline_app (a b : string) :
  noNewline a = true -> noNewline b = true -> noNewline (a ++ b)%string = true.
Proof.
  induction a as [|c a IH]; intros Ha Hb; [done|].
  simpl in Ha. apply andb_true_iff in Ha as [Hc Ha].
  change (negb (Ascii.eqb c "010") && noNewline (a ++ b)%string = true).
  by rewrite Hc, IH.
Qed.

Lemma splitLines_render (evs : list (Speaker * string)) :
  Forall (fun ev => noNewline (snd ev) = true) evs ->
  splitLines (renderTranscript evs) = map transcriptLine evs.
Proof.
  induction 1 as [|ev evs Hev Hall IH]; [done|].
  cbn [renderTranscript map]. rewrite splitLines_line, IH; [done|].
  apply noNewline_app; [by destruct ev as [[] ?]|done].
Qed.

Section TranscriptClaims.
Context {utils : AudioUtils}.

Lemma transcription_step (ev : Speaker * string) (now : Q) (s : State) :
  callbacks s <> None -> audioContextRef s <> None -> snd ev <> "" ->
  let s' := step s (EvMessage (transcriptionMessage ev) now) in
  transcriptRef s' = (transcriptRef s ++ transcriptLine ev ++ newline)%string /\
  callbacks s' = callbacks s /\ audioContextRef s' = audioContextRef s.
Proof.
  intros Hcb Hctx Hne. cbn [step].
  destruct (callbacks s) eqn:Ecb; [|done]. unfold handleServerMessage.
  destruct (audioContextRef s) as [ctx|] eqn:E; [|done].
  destruct ev as [[] t]; destruct t as [|c t]; try done; cbn.
  all: unfold transcriptLine; cbn [fst snd speakerTag];
    rewrite ?string_app_assoc; done.
Qed.

(** C5 (amended). Transcription events with non-empty text, delivered one
    message each while the connection callbacks are registered and the output
    audio context is set, are appended to the transcript string in arrival
    order, one line per event: the tag [User: ] or [Tutor: ], the text, a
    line feed.  When no text contains a line feed the lines of the transcript
    added are exactly the events, in order.  For user "A", tutor "B",
    user "C" the transcript grows by the three lines [User: A], [Tutor: B],
    [User: C]. *)
Theorem C5_transcript_arrival_order (evs : list (Speaker * string)) (now : Q)
    (s : State) :
  callbacks s <> None -> audioContextRef s <> None ->
  Forall (fun ev => snd ev <> "") evs ->
  transcriptRef (run s (transcriptionTrace evs now)) =
    (transcriptRef s ++ renderTranscript evs)%string /\
  (Forall (fun ev => noNewline (snd ev) = true) evs ->
   splitLines (renderTranscript evs) = map transcriptLine evs) /\
  splitLines (renderTranscript abcEvents) = ["User: A"; "Tutor: B"; "User: C"].
Proof.
  intros Hcb Hctx Hne. split_and!; [|apply splitLines_render|done].
  revert s Hcb Hctx. induction Hne as [|ev evs Hev Hall IH]; intros s Hcb Hctx.
  - cbn. by rewrite string_app_nil_r.
  - destruct (transcription_step ev now s Hcb Hctx Hev) as (Et & Ec & Ea).
    change (run s (transcriptionTrace (ev :: evs) now))
      with (run (step s (EvMessage (transcriptionMessage ev) now)) (transcriptionTrace evs now)).
    rewrite IH by congruence. rewrite Et. cbn [renderTranscript].
    by rewrite !string_app_assoc.
Qed.

End TranscriptClaims.

Lemma C5_transcript_arrival_order_witness :
  let s := run (utils := testUtils) initialState [EvMount testEnv; EvOpen] in
  (callbacks s <> None /\ audioContextRef s <> None /\
   Forall (fun ev : Speaker * string => snd ev <> "") abcEvents) /\
  transcriptRef (run (utils := testUtils) s (transcriptionTrace abcEvents 1)) =
    ("User: A" ++ newline ++ "Tutor: B" ++ newline ++ "User: C" ++ newline)%string.
Proof.
  intros s.
  assert (callbacks s <> None) as H1 by (vm_compute; discriminate).
  assert (audioContextRef s <> None) as H2 by (vm_compute; discriminate).
  assert (Forall (fun ev : Speaker * string => snd ev <> "") abcEvents) as H3
    by (repeat constructor; discriminate).
  split; [by split_and!|].
  exact (proj1 (C5_transcript_arrival_order (utils := testUtils) abcEvents 1 s H1 H2 H3)).
Defined.

(** The claim C5 as stated fails on its own example: the transcript is one
    string, and its lines carry the tags [User: ] and [Tutor: ], so they are
    not "user:A", "tutor:B", "user:C". *)
Lemma C5_counterexample :
  let s := run (utils := testUtils) initialState [EvMount testEnv; EvOpen] in
  let t := transcriptRef (run (utils := testUtils) s (transcriptionTrace abcEvents 1)) in
  splitLines t = ["User: A"; "Tutor: B"; "User: C"] /\
  splitLines t <> ["user:A"; "tutor:B"; "user:C"].
Proof.
  vm_compute. split; [reflexivity | discriminate].
Qed.

(** ** Capture and sending (lines 124-147) *)

Lemma sent_app (es1 es2 : list Effect) : sent (es1 ++ es2) = sent es1 ++ sent es2.
Proof. apply flat_map_app. Qed.

Section CaptureClaims.
Context {utils : AudioUtils}.

Lemma audioprocess_step (s : State) (p : Processor) (w : Float32Array) :
  processorRef s = Some p ->
  let s' := step s (EvAudioProcess w) in
  effects s' = effects s ++
    (if r_isMuted (proc_env p) then [] else [SendRealtimeInput (createPCM16Blob w)]) /\
  processorRef s' = processorRef s /\ isConnected s' = isConnected s /\
  error s' = error s /\ isMuted s' = isMuted s.
Proof.
  intros Hp. cbn [step]. rewrite Hp. unfold onaudioprocess.
  destruct (r_isMuted (proc_env p)); simpl; rewrite ?app_nil_r; done.
Qed.

Lemma audioprocess_run (ws : list Float32Array) (s : State) (p : Processor) :
  processorRef s = Some p ->
  let s' := run s (map EvAudioProcess ws) in
  sent (effects s') = sent (effects s) ++
    (if r_isMuted (proc_env p) then [] else map createPCM16Blob ws) /\
  processorRef s' = processorRef s /\ isConnected s' = isConnected s /\
  error s' = error s /\ isMuted s' = isMuted s.
Proof.
  revert s. induction ws as [|w ws IH]; intros s Hp.
  - cbn. destruct (r_isMuted _); by rewrite app_nil_r.
  - destruct (audioprocess_step s p w Hp) as (E1 & E2 & E3 & E4 & E5).
    change (run s (map EvAudioProcess (w :: ws)))
      with (run (step s (EvAudioProcess w)) (map EvAudioProcess ws)).
    destruct (IH (step s (EvAudioProcess w))) as (F1 & F2 & F3 & F4 & F5); [congruence|].
    cbv zeta. rewrite F1, F2, F3, F4, F5, E1, E2, E3, E4, E5, sent_app.
    destruct (r_isMuted (proc_env p)); simpl; rewrite <- ?app_assoc; done.
Qed.

(** The processor callback is a closure of the first render whatever happens
    after the mount: the [isMuted] it tests is the initial [false]. *)
Lemma closures_step (s : State) (e : Event) :
  is_mount e = false -> closures_of_first_render s ->
  closures_of_first_render (step s e).
Proof.
  intros He Hs.
  assert (forall s' : State,
    callbacks s' = callbacks s -> processorRef s' = processorRef s ->
    closures_of_first_render s') as Hsame.
  { intros s' E1 E2. unfold closures_of_first_render. rewrite E1, E2. exact Hs. }
  assert (forall s' : State,
    callbacks s' = callbacks s -> processorRef s' = None ->
    closures_of_first_render s') as Hnone.
  { intros s' E1 E2. unfold closures_of_first_render. rewrite E1, E2.
    split; [exact (proj1 Hs)|done]. }
  destruct e; try done; cbn [step].
  - destruct (callbacks s) as [r|] eqn:E; [|done].
    unfold onopen, startAudioInput. simpl.
    destruct (inputContextRef s) as [ic|]; [|by apply Hsame].
    split; simpl; [exact (proj1 Hs)|].
    intros q [= <-]. simpl. apply (proj1 Hs). by rewrite E.
  - destruct (callbacks s) as [r|] eqn:E; [|done].
    unfold handleServerMessage.
    destruct (serverContent message) as [sc|]; [|done].
    destruct (audioContextRef s) as [ctx|]; [|done].
    destruct (interrupted sc); [rewrite handleInterruption_eq; by apply Hsame|].
    rewrite handleTranscripts_eq. unfold handleAudioOutput.
    destruct (base64Audio sc); [|by apply Hsame].
    destruct (decodeAudioData _ _ _ _); [|by apply Hsame].
    unfold scheduleBuffer. destruct (negb _); by apply Hsame.
  - destruct (callbacks s) eqn:E; by apply Hsame.
  - destruct (callbacks s) eqn:E; by apply Hsame.
  - destruct (processorRef s) as [p|] eqn:E; [|done].
    unfold onaudioprocess. destruct (r_isMuted _); by apply Hsame.
  - unfold onended. simpl. case_decide; by apply Hsame.
  - destruct (timers s); [done|]. unfold debounceElapsed. simpl.
    case_decide; by apply Hsame.
  - unfold handleEndSession. rewrite cleanup_eq. by apply Hnone.
  - rewrite cleanup_eq. by apply Hnone.
Qed.

Lemma closures_run (tr : list Event) (s : State) :
  Forall (fun e => is_mount e = false) tr -> closures_of_first_render s ->
  closures_of_first_render (run s tr).
Proof.
  revert s. induction tr as [|e tr IH]; intros s Hall Hs; [done|].
  apply Forall_cons in Hall as [He Hall]. apply IH; [done|]. by apply closures_step.
Qed.

Lemma closures_mount (env : ConnectEnv) :
  closures_of_first_render (step initialState (EvMount env)).
Proof.
  cbn [step]. unfold connectToLiveApi. destruct (env_getUserMedia env); split; simpl;
    try done. by intros r [= <-].
Qed.

(** The mute flag does not reach the capture callback: after the mount,
    whatever the user does, every capture window is encoded and sent. *)
Lemma mute_flag_never_consulted (env : ConnectEnv) (tr : list Event)
    (ws : list Float32Array) (p : Processor) :
  Forall (fun e => is_mount e = false) tr ->
  let s := run initialState (EvMount env :: tr) in
  processorRef s = Some p ->
  sent (effects (run s (map EvAudioProcess ws))) =
    sent (effects s) ++ map createPCM16Blob ws.
Proof.
  intros Hall s Hp.
  assert (closures_of_first_render s) as [_ Hc].
  { unfold s. change (run initialState (EvMount env :: tr))
      with (run (step initialState (EvMount env)) tr).
    apply closures_run; [done|]. apply closures_mount. }
  destruct (audioprocess_run ws s p Hp) as (E & _).
  rewrite E, (Hc p Hp). done.
Qed.

(** Pressing the mute button changes the [isMuted] state cell and nothing
    else: the stream, the capture nodes and the contexts stay as they are and
    nothing is asked of the platform. *)
Lemma toggleMute_local (s : State) :
  let s' := step s EvToggleMute in
  isMuted s' = negb (isMuted s) /\
  streamRef s' = streamRef s /\ processorRef s' = processorRef s /\
  sourceRef s' = sourceRef s /\ inputContextRef s' = inputContextRef s /\
  audioContextRef s' = audioContextRef s /\ effects s' = effects s.
Proof. done. Qed.

End CaptureClaims.

(** C3. The code at the failing input: the component is mounted and
    connected, the mute button is pressed, two capture windows elapse.  The
    mute flag is set, and both windows are encoded and sent. *)
Theorem C3_muted_windows_are_sent :
  let s := run (utils := testUtils) initialState mutedTrace in
  isMuted s = true /\
  sent (effects s) = [] /\
  sent (effects (run (utils := testUtils) s (map EvAudioProcess [window1; window2]))) =
    map (createPCM16Blob (AudioUtils := testUtils)) [window1; window2].
Proof. vm_compute. split_and!; reflexivity. Qed.

(** ** The "AI is speaking" state (lines 165-167, 179 and 200-210) *)

(** The claim C8 as stated fails on a turn-complete message without audio:
    two buffers are scheduled and active, the message clears "AI is
    speaking" at once, no timer is armed, and the active set is untouched. *)
Lemma C8_counterexample :
  let s := run (utils := testUtils) initialState playingTrace in
  let s' := step (utils := testUtils) s (EvMessage turnCompleteMessage 1) in
  isAiSpeaking s = true /\
  elements (sourcesRef s') = [3%positive; 4%positive] /\
  isAiSpeaking s' = false /\
  timers s' = 0 /\
  effects s' = effects s.
Proof. vm_compute. split_and!; reflexivity. Qed.

(** ** The audio frame codec *)

Module CodecFacts.
Import Codec.

Lemma clampSample_range (s : Q) : (-1 <= clampSample s <= 1)%Q.
Proof.
  unfold clampSample.
  destruct (Qle_bool s (-1)) eqn:E1; [lra|].
  destruct (Qle_bool 1 s) eqn:E2; [lra|].
  assert (~ (s <= -1)%Q) by (rewrite <- Qle_bool_iff; congruence).
  assert (~ (1 <= s)%Q) by (rewrite <- Qle_bool_iff; congruence).
  lra.
Qed.

Lemma clampSample_spec (s : Q) :
  ((s <= -1)%Q /\ clampSample s = (-1)%Q) \/
  ((1 <= s)%Q /\ clampSample s = 1%Q) \/
  ((-1 < s < 1)%Q /\ clampSample s = s).
Proof.
  unfold clampSample.
  destruct (Qle_bool s (-1)) eqn:E1.
  { left. split; [by apply Qle_bool_iff|done]. }
  assert (~ (s <= -1)%Q) by (rewrite <- Qle_bool_iff; congruence).
  destruct (Qle_bool 1 s) eqn:E2.
  { right; left. split; [by apply Qle_bool_iff|done]. }
  assert (~ (1 <= s)%Q) by (rewrite <- Qle_bool_iff; congruence).
  right; right. split; [lra|done].
Qed.

Lemma truncate_nonneg (q : Q) :
  (0 <= q)%Q -> (inject_Z (truncate q) <= q)%Q /\ (q < inject_Z (truncate q) + 1)%Q.
Proof.
  destruct q as [n d]. unfold truncate, Qle, Qlt, inject_Z, Qplus. simpl.
  intros Hn.
  split; Z.to_euclidean_division_equations; nia.
Qed.

Lemma truncate_nonpos (q : Q) :
  (q <= 0)%Q -> (inject_Z (truncate q) - 1 < q)%Q /\ (q <= inject_Z (truncate q))%Q.
Proof.
  destruct q as [n d]. unfold truncate, Qle, Qlt, inject_Z, Qminus, Qplus, Qopp. simpl.
  intros Hn.
  split; Z.to_euclidean_division_equations; nia.
Qed.

Lemma truncate_mono (p q : Q) : (p <= q)%Q -> (truncate p <= truncate q)%Z.
Proof.
  destruct p as [n d], q as [n' d']. unfold truncate, Qle. simpl. intros Hle.
  rewrite <- (Z.quot_mul_cancel_r n (Z.pos d) (Z.pos d')) by lia.
  rewrite <- (Z.quot_mul_cancel_r n' (Z.pos d') (Z.pos d)) by lia.
  rewrite (Z.mul_comm (Z.pos d') (Z.pos d)).
  apply Z.quot_le_mono; lia.
Qed.

Lemma truncate_inject_Z (z : Z) : truncate (inject_Z z) = z.
Proof. unfold truncate, inject_Z. simpl. apply Z.quot_1_r. Qed.

Lemma bytes_roundtrip (v : Z) :
  (-32768 <= v <= 32767)%Z ->
  bytes_int16 (v mod 256) ((v / 256) mod 256) = v.
Proof.
  intros Hv. unfold bytes_int16. cbv zeta.
  destruct (Z.leb_spec 32768 (v mod 256 + 256 * ((v / 256) mod 256))%Z);
    Z.div_mod_to_equations; lia.
Qed.


Lemma truncate_Qeq (p q : Q) : (p == q)%Q -> truncate p = truncate q.
Proof.
  intros Heq.
  assert (truncate p <= truncate q)%Z by (apply truncate_mono; lra).
  assert (truncate q <= truncate p)%Z by (apply truncate_mono; lra).
  lia.
Qed.

Lemma truncate_eq (q : Q) (z : Z) : (q == inject_Z z)%Q -> truncate q = z.
Proof. intros Heq. by rewrite (truncate_Qeq _ _ Heq), truncate_inject_Z. Qed.

Lemma Qmake_mult_den (v : Z) (k : positive) :
  ((v # k) * inject_Z (Z.pos k) == inject_Z v)%Q.
Proof. unfold Qeq, Qmult, inject_Z. simpl. lia. Qed.

Lemma encodeSample_spec (s : Q) :
  ((0 <= clampSample s)%Q /\ encodeSample s = truncate (clampSample s * 32767)) \/
  ((clampSample s < 0)%Q /\ encodeSample s = truncate (clampSample s * 32768)).
Proof.
  unfold encodeSample. cbv zeta.
  destruct (Qle_bool 0 (clampSample s)) eqn:E.
  - left. split; [by apply Qle_bool_iff|done].
  - right. split; [|done].
    assert (~ (0 <= clampSample s)%Q) by (rewrite <- Qle_bool_iff; congruence). lra.
Qed.

Lemma clampSample_idem (s : Q) : clampSample (clampSample s) = clampSample s.
Proof.
  destruct (clampSample_spec s) as [[_ ->] | [[_ ->] | [Hs ->]]]; try done.
  destruct (clampSample_spec s) as [[H _] | [[H _] | [_ ->]]]; try done; lra.
Qed.

Lemma encodeSample_range (s : Q) : (-32768 <= encodeSample s <= 32767)%Z.
Proof.
  pose proof (clampSample_range s) as Hc.
  destruct (encodeSample_spec s) as [[H0 ->] | [H0 ->]].
  - destruct (truncate_nonneg (clampSample s * 32767)) as [Hl Hu]; [lra|].
    assert (inject_Z (truncate (clampSample s * 32767)) <= inject_Z 32767)%Q
      by (change (inject_Z 32767) with 32767%Q; lra).
    assert (inject_Z (-1) < inject_Z (truncate (clampSample s * 32767)))%Q
      by (change (inject_Z (-1)) with (-1)%Q; lra).
    rewrite <- Zle_Qle in *. rewrite <- Zlt_Qlt in *. lia.
  - destruct (truncate_nonpos (clampSample s * 32768)) as [Hl Hu]; [lra|].
    assert (inject_Z (-32769) < inject_Z (truncate (clampSample s * 32768)))%Q
      by (change (inject_Z (-32769)) with (-32769)%Q; lra).
    assert (inject_Z (truncate (clampSample s * 32768)) < inject_Z 1)%Q
      by (change (inject_Z 1) with 1%Q; lra).
    rewrite <- Zlt_Qlt in *. lia.
Qed.

Lemma clampSample_mono (s s' : Q) : (s <= s')%Q -> (clampSample s <= clampSample s')%Q.
Proof.
  intros Hle.
  destruct (clampSample_spec s) as [[H1 ->] | [[H1 ->] | [H1 ->]]],
    (clampSample_spec s') as [[H2 ->] | [[H2 ->] | [H2 ->]]]; lra.
Qed.

Lemma encodeSample_mono (s s' : Q) : (s <= s')%Q -> (encodeSample s <= encodeSample s')%Z.
Proof.
  intros Hle%clampSample_mono.
  destruct (encodeSample_spec s) as [[H1 ->] | [H1 ->]],
    (encodeSample_spec s') as [[H2 ->] | [H2 ->]].
  - apply truncate_mono. lra.
  - lra.
  - trans (truncate 0); apply truncate_mono; lra.
  - apply truncate_mono. lra.
Qed.

Lemma encodeSample_high (s : Q) : (1 <= s)%Q -> encodeSample s = 32767%Z.
Proof.
  intros Hs.
  destruct (clampSample_spec s) as [[H _] | [[_ Hc] | [H _]]]; [lra| |lra].
  unfold encodeSample. by rewrite Hc.
Qed.

Lemma encodeSample_low (s : Q) : (s <= -1)%Q -> encodeSample s = (-32768)%Z.
Proof.
  intros Hs.
  destruct (clampSample_spec s) as [[_ Hc] | [[H _] | [H _]]]; [|lra|lra].
  unfold encodeSample. by rewrite Hc.
Qed.

Lemma decodeSample_range (v : Z) :
  (-32768 <= v <= 32767)%Z -> (-1 <= decodeSample v <= 1)%Q.
Proof.
  intros Hv. unfold decodeSample.
  destruct (Z.leb_spec 0 v); unfold Qle; simpl; lia.
Qed.

Lemma encode_decodeSample (v : Z) :
  (-32768 <= v <= 32767)%Z -> encodeSample (decodeSample v) = v.
Proof.
  intros Hv. unfold decodeSample. destruct (Z.leb_spec 0 v) as [Hpos|Hneg].
  - pose proof (Qmake_mult_den v 32767) as Hm.
    change (inject_Z (Z.pos 32767)) with 32767%Q in Hm.
    assert (0 <= v # 32767)%Q as H0 by (unfold Qle; simpl; lia).
    destruct (encodeSample_spec (v # 32767)) as [[_ ->] | [Hc _]].
    2:{ pose proof (clampSample_mono 0 (v # 32767) H0) as Hmono.
        change (clampSample 0) with 0%Q in Hmono. lra. }
    destruct (clampSample_spec (v # 32767)) as [[H _] | [[H ->] | [_ ->]]].
    + lra.
    + assert (inject_Z 32767 <= inject_Z v)%Q as Hge
        by (change (inject_Z 32767) with 32767%Q; lra).
      rewrite <- Zle_Qle in Hge. assert (v = 32767%Z) as -> by lia. done.
    + by apply truncate_eq.
  - pose proof (Qmake_mult_den v 32768) as Hm.
    change (inject_Z (Z.pos 32768)) with 32768%Q in Hm.
    assert (v # 32768 < 0)%Q as H0 by (unfold Qlt; simpl; lia).
    destruct (encodeSample_spec (v # 32768)) as [[Hc _] | [_ ->]].
    { pose proof (clampSample_mono (v # 32768) 0) as Hmono.
      change (clampSample 0) with 0%Q in Hmono.
      destruct (clampSample_spec (v # 32768)) as [[_ Hk] | [[H _] | [_ Hk]]];
        rewrite ?Hk in Hc; lra. }
    destruct (clampSample_spec (v # 32768)) as [[H ->] | [[H _] | [_ ->]]].
    + assert (inject_Z v <= inject_Z (-32768))%Q as Hge
        by (change (inject_Z (-32768)) with (-32768)%Q; lra).
      rewrite <- Zle_Qle in Hge. assert (v = (-32768)%Z) as -> by lia. done.
    + lra.
    + by apply truncate_eq.
Qed.

Lemma decode_encodeSample (s : Q) :
  (clampSample s - (1 # 32767) < decodeSample (encodeSample s))%Q /\
  (decodeSample (encodeSample s) < clampSample s + (1 # 32767))%Q.
Proof.
  pose proof (clampSample_range s) as Hc.
  destruct (encodeSample_spec s) as [[H0 ->] | [H0 ->]].
  - destruct (truncate_nonneg (clampSample s * 32767)) as [Hl Hu]; [lra|].
    set (v := truncate (clampSample s * 32767)) in *.
    assert (inject_Z (-1) < inject_Z v)%Q as Hv
      by (change (inject_Z (-1)) with (-1)%Q; lra).
    rewrite <- Zlt_Qlt in Hv.
    pose proof (Qmake_mult_den v 32767) as Hm.
    change (inject_Z (Z.pos 32767)) with 32767%Q in Hm.
    unfold decodeSample. destruct (Z.leb_spec 0 v); [|lia]. lra.
  - destruct (truncate_nonpos (clampSample s * 32768)) as [Hl Hu]; [lra|].
    set (v := truncate (clampSample s * 32768)) in *.
    unfold decodeSample. destruct (Z.leb_spec 0 v) as [Hpos|Hneg].
    + assert (inject_Z v < inject_Z 1)%Q as Hv
        by (change (inject_Z 1) with 1%Q; lra).
      rewrite <- Zlt_Qlt in Hv. assert (v = 0%Z) as Hz by lia.
      rewrite Hz in *. change (inject_Z 0) with 0%Q in *.
      assert (0 # 32767 == 0)%Q as Hq by done. lra.
    + pose proof (Qmake_mult_den v 32768) as Hm.
      change (inject_Z (Z.pos 32768)) with 32768%Q in Hm. lra.
Qed.

Lemma int16_bytes_range (v : Z) : Forall (fun b => (0 <= b < 256)%Z) (int16_bytes v).
Proof. unfold int16_bytes. repeat constructor; Z.div_mod_to_equations; lia. Qed.

Lemma int16s_encodePCM16 (samples : list Q) :
  int16s (encodePCM16 samples) = map encodeSample samples.
Proof.
  induction samples as [|s r IH]; [done|].
  change (encodePCM16 (s :: r)) with (int16_bytes (encodeSample s) ++ encodePCM16 r).
  unfold int16_bytes. cbn [app int16s map].
  by rewrite bytes_roundtrip, IH by apply encodeSample_range.
Qed.

Lemma encodePCM16_range (samples : list Q) :
  Forall (fun b => (0 <= b < 256)%Z) (encodePCM16 samples).
Proof.
  induction samples as [|s r IH]; [constructor|].
  change (encodePCM16 (s :: r)) with (int16_bytes (encodeSample s) ++ encodePCM16 r).
  apply Forall_app. split; [apply int16_bytes_range|done].
Qed.

Lemma encodePCM16_length (samples : list Q) :
  List.length (encodePCM16 samples) = (2 * List.length samples)%nat.
Proof.
  induction samples as [|s r IH]; [done|].
  change (encodePCM16 (s :: r)) with (int16_bytes (encodeSample s) ++ encodePCM16 r).
  rewrite length_app, IH. simpl. lia.
Qed.

Lemma decodeAudioData_encodePCM16 (samples : list Q) (ctx rate : positive) :
  decodeAudioData (encodePCM16 samples) ctx rate 1 =
    Some (mkAudioBuffer (N.of_nat (List.length samples)) rate 1).
Proof.
  unfold decodeAudioData, decodePCM16.
  by rewrite int16s_encodePCM16, !length_map, N.div_1_r.
Qed.


(** C9. Encoding clamps a sample to [-1, 1], so that samples outside the
    range reach the ends of the 16-bit range instead of wrapping: the code
    lies in -32768..32767 and grows with the sample; the code is the clamped
    sample scaled to the 16-bit range, the fraction dropped; it is stored as
    two bytes, least significant first.  Decoding maps every 16-bit code
    back into [-1, 1] and inverts the encoding: a code is recovered exactly,
    a sample up to one quantisation step.  A window of [n] samples encodes to
    [2 n] bytes and decodes to a buffer of [n] frames, whose duration is
    [n] over the sample rate; so for a silent window. *)
Theorem C9_pcm16_codec (s s' : Q) (v : Z) (samples : list Q) (n : nat)
    (ctx rate : positive) :
  (s <= s')%Q -> (-32768 <= v <= 32767)%Z ->
  ((-1 <= clampSample s <= 1)%Q /\
   encodeSample s = encodeSample (clampSample s) /\
   ((1 <= s)%Q -> encodeSample s = 32767%Z) /\
   ((s <= -1)%Q -> encodeSample s = (-32768)%Z) /\
   (-32768 <= encodeSample s <= 32767)%Z /\
   (encodeSample s <= encodeSample s')%Z /\
   ((0 <= clampSample s)%Q ->
    (inject_Z (encodeSample s) <= clampSample s * 32767 < inject_Z (encodeSample s) + 1)%Q) /\
   ((clampSample s < 0)%Q ->
    (inject_Z (encodeSample s) - 1 < clampSample s * 32768 <= inject_Z (encodeSample s))%Q)) /\
  (int16_bytes v = [v mod 256; (v / 256) mod 256]%Z /\
   Forall (fun b => (0 <= b < 256)%Z) (int16_bytes v) /\
   int16s (int16_bytes v) = [v] /\
   Forall (fun b => (0 <= b < 256)%Z) (encodePCM16 samples) /\
   int16s (encodePCM16 samples) = map encodeSample samples) /\
  ((-1 <= decodeSample v <= 1)%Q /\
   encodeSample (decodeSample v) = v /\
   (clampSample s - (1 # 32767) < decodeSample (encodeSample s) <
      clampSample s + (1 # 32767))%Q /\
   decodePCM16 (encodePCM16 samples) =
     map (fun x => decodeSample (encodeSample x)) samples) /\
  (List.length (encodePCM16 samples) = (2 * List.length samples)%nat /\
   decodeAudioData (encodePCM16 samples) ctx rate 1 =
     Some (mkAudioBuffer (N.of_nat (List.length samples)) rate 1) /\
   duration (mkAudioBuffer (N.of_nat (List.length samples)) rate 1) =
     (Z.of_nat (List.length samples) # rate) /\
   decodeAudioData (encodePCM16 (repeat 0%Q n)) ctx rate 1 =
     Some (mkAudioBuffer (N.of_nat n) rate 1) /\
   duration (mkAudioBuffer (N.of_nat n) rate 1) = (Z.of_nat n # rate)).
Proof.
  intros Hle Hv. split_and!.
  - apply clampSample_range.
  - apply clampSample_range.
  - unfold encodeSample. cbv zeta. by rewrite clampSample_idem.
  - apply encodeSample_high.
  - apply encodeSample_low.
  - apply encodeSample_range.
  - apply encodeSample_range.
  - by apply encodeSample_mono.
  - intros H0. destruct (encodeSample_spec s) as [[_ ->] | [H1 _]]; [|lra].
    apply truncate_nonneg. pose proof (clampSample_range s). lra.
  - intros H0. destruct (encodeSample_spec s) as [[H1 _] | [_ ->]]; [lra|].
    apply truncate_nonpos. lra.
  - done.
  - apply int16_bytes_range.
  - unfold int16_bytes. cbn [int16s]. by rewrite bytes_roundtrip.
  - apply encodePCM16_range.
  - apply int16s_encodePCM16.
  - by apply decodeSample_range.
  - by apply decodeSample_range.
  - by apply encode_decodeSample.
  - apply decode_encodeSample.
  - apply decode_encodeSample.
  - unfold decodePCM16. by rewrite int16s_encodePCM16, map_map.
  - apply encodePCM16_length.
  - apply decodeAudioData_encodePCM16.
  - unfold duration. simpl. by rewrite nat_N_Z.
  - rewrite decodeAudioData_encodePCM16. by rewrite repeat_length.
  - unfold duration. simpl. by rewrite nat_N_Z.
Qed.

Lemma C9_pcm16_codec_witness :
  ((3 # 2 <= 2)%Q /\ (-32768 <= -2 <= 32767)%Z) /\
  encodeSample (3 # 2) = 32767%Z /\
  int16_bytes (-2) = [254; 255]%Z /\
  encodeSample (decodeSample (-2)) = (-2)%Z /\
  decodeAudioData (encodePCM16 (repeat 0%Q 4096)) 1 24000 1 =
    Some (mkAudioBuffer 4096 24000 1).
Proof.
  assert (3 # 2 <= 2)%Q as H1 by (unfold Qle; simpl; lia).
  assert (-32768 <= -2 <= 32767)%Z as H2 by lia.
  split; [by split|].
  destruct (C9_pcm16_codec (3 # 2) 2 (-2) [] 4096 1 24000 H1 H2)
    as ((_ & _ & Hhi & _) & (Hb & _) & (_ & Hinv & _) & (_ & _ & _ & Hdec & _)).
  split_and!.
  - apply Hhi. unfold Qle; simpl; lia.
  - exact Hb.
  - exact Hinv.
  - exact Hdec.
Defined.

End CodecFacts.

(** * Further properties of the session component *)

(** Case analysis on one turn of the event loop: every function a handler
    calls is unfolded and every test it makes is decided. *)
Ltac step_cases :=
  cbn [step];
  unfold onopen, startAudioInput, onclose, onerror, onaudioprocess, onended,
    debounceElapsed, handleEndSession, toggleMute, connectToLiveApi,
    handleServerMessage, handleAudioOutput, scheduleBuffer;
  repeat first
    [ progress rewrite ?cleanup_eq, ?handleInterruption_eq, ?handleTranscripts_eq
    | match goal with
      | |- context [match ?x with _ => _ end] => destruct x eqn:?
      end ];
  cbn [isConnected error isMuted isAiSpeaking audioContextRef inputContextRef
       streamRef processorRef sourceRef sessionRef nextStartTimeRef sourcesRef
       transcriptRef callbacks timers nextNode effects
       set_isConnected set_error set_isMuted set_isAiSpeaking
       set_audioContextRef set_inputContextRef set_streamRef set_processorRef
       set_sourceRef set_sessionRef set_nextStartTimeRef set_sourcesRef
       set_transcriptRef set_callbacks set_timers set_nextNode emit] in *.

Section SessionExtras.
Context {utils : AudioUtils}.

Lemma step_transcript (s : State) (e : Event) :
  exists suffix,
    transcriptRef (step s e) = (transcriptRef s ++ suffix)%string /\
    (is_message e = false -> suffix = "").
Proof.
  destruct e; try (exists ""; split; [|done]; step_cases;
                   by rewrite string_app_nil_r).
  cbn [step]. destruct (callbacks s);
    [|exists ""; by rewrite string_app_nil_r].
  unfold handleServerMessage.
  destruct (serverContent message) as [sc|];
    [|exists ""; by rewrite string_app_nil_r].
  destruct (audioContextRef s) as [ctx|];
    [|exists ""; by rewrite string_app_nil_r].
  destruct (interrupted sc).
  { exists "". rewrite handleInterruption_eq. by rewrite string_app_nil_r. }
  exists (transcriptLines sc). split; [|done].
  rewrite handleTranscripts_eq. unfold handleAudioOutput, scheduleBuffer.
  by repeat match goal with
            | |- context [match ?x with _ => _ end] => destruct x
            end.
Qed.

(** X1. The transcript is only ever extended: whatever happens, what was
    accumulated stays a prefix of the transcript, and events other than
    inbound messages leave it as it is. *)
Theorem transcript_append_only (tr : list Event) (s : State) :
  exists suffix,
    transcriptRef (run s tr) = (transcriptRef s ++ suffix)%string /\
    (Forall (fun e => is_message e = false) tr -> suffix = "").
Proof.
  revert s. induction tr as [|e tr IH]; intros s.
  - exists "". by rewrite string_app_nil_r.
  - destruct (step_transcript s e) as (x & Ex & Hx).
    destruct (IH (step s e)) as (y & Ey & Hy).
    exists (x ++ y)%string.
    change (run s (e :: tr)) with (run (step s e) tr).
    rewrite Ey, Ex, string_app_assoc. split; [done|].
    intros [He Htr]%Forall_cons. by rewrite Hx, Hy.
Qed.


Lemma run_app (tr1 tr2 : list Event) (s : State) :
  run s (tr1 ++ tr2) = run (run s tr1) tr2.
Proof. apply fold_left_app. Qed.

Lemma transcription_run (evs : list (Speaker * string)) (now : Q) (s : State) :
  callbacks s <> None -> audioContextRef s <> None ->
  Forall (fun ev => snd ev <> "") evs ->
  transcriptRef (run s (transcriptionTrace evs now)) =
    (transcriptRef s ++ renderTranscript evs)%string.
Proof.
  intros Hcb Hctx Hne. revert s Hcb Hctx.
  induction Hne as [|ev evs Hev Hall IH]; intros s Hcb Hctx.
  - cbn. by rewrite string_app_nil_r.
  - destruct (transcription_step ev now s Hcb Hctx Hev) as (Et & Ec & Ea).
    change (run s (transcriptionTrace (ev :: evs) now))
      with (run (step s (EvMessage (transcriptionMessage ev) now))
                (transcriptionTrace evs now)).
    rewrite IH by congruence. rewrite Et. cbn [renderTranscript].
    by rewrite !string_app_assoc.
Qed.

(** X2. Ending the session hands the parent the transcript as accumulated:
    after transcription events with non-empty text, the last thing the
    end-session button does is to call [onEndSession] with the transcript
    extended by one line per event, in arrival order. *)
Theorem end_session_hands_over_transcript (evs : list (Speaker * string))
    (now : Q) (s : State) :
  callbacks s <> None -> audioContextRef s <> None ->
  Forall (fun ev => snd ev <> "") evs ->
  last (effects (run s (transcriptionTrace evs now ++ [EvEndSession]))) =
    Some (OnEndSession (transcriptRef s ++ renderTranscript evs)%string).
Proof.
  intros Hcb Hctx Hne. rewrite run_app.
  rewrite <- (transcription_run evs now s Hcb Hctx Hne).
  set (s1 := run s (transcriptionTrace evs now)).
  change (run s1 [EvEndSession]) with (handleEndSession s1).
  unfold handleEndSession. rewrite cleanup_eq. simpl. apply last_snoc.
Qed.

Lemma sent_SourceStop (hs : list positive) : sent (map SourceStop hs) = [].
Proof. induction hs; simpl; auto. Qed.

Lemma sent_TrackStop (ts : list positive) : sent (map TrackStop ts) = [].
Proof. induction ts; simpl; auto. Qed.

Lemma sent_releases (s : State) : sent (releases s) = [].
Proof.
  unfold releases. rewrite !sent_app, sent_SourceStop.
  destruct (processorRef s), (sourceRef s), (streamRef s), (inputContextRef s),
    (audioContextRef s); simpl; rewrite ?sent_TrackStop; done.
Qed.

(** What one turn of the event loop hands to [session.sendRealtimeInput]. *)
Lemma step_sent (s : State) (e : Event) :
  sent (effects (step s e)) = sent (effects s) ++
    match e, processorRef s with
    | EvAudioProcess w, Some p =>
        if r_isMuted (proc_env p) then [] else [createPCM16Blob w]
    | _, _ => []
    end.
Proof.
  destruct e; step_cases;
    rewrite ?sent_app, ?sent_SourceStop, ?sent_releases; simpl;
    rewrite ?app_nil_r; done.
Qed.

(** X3. Nothing is captured before the connection opens: along every run
    from the initial state in which [onopen] has not fired, the session is
    not connected, no capture node exists and no frame has been sent,
    whatever else happens. *)
Theorem no_capture_before_open (tr : list Event) :
  Forall (fun e => is_open e = false) tr ->
  let s := run initialState tr in
  isConnected s = false /\ processorRef s = None /\ sourceRef s = None /\
  sent (effects s) = [].
Proof.
  intros Hall.
  assert (forall s : State,
    isConnected s = false /\ processorRef s = None /\ sourceRef s = None /\
    sent (effects s) = [] ->
    isConnected (run s tr) = false /\ processorRef (run s tr) = None /\
    sourceRef (run s tr) = None /\ sent (effects (run s tr)) = []) as Hgen.
  { induction Hall as [|e tr He Hall IH]; intros s Hs; [done|].
    change (run s (e :: tr)) with (run (step s e) tr). apply IH.
    destruct Hs as (H1 & H2 & H3 & H4).
    split_and!; [| | |rewrite step_sent, H4, H2; by destruct e];
      destruct e; try done; step_cases; congruence. }
  by apply Hgen.
Qed.


Lemma truthy_Some (o : option string) (m : string) :
  truthy o = Some m -> truthy (Some m) = Some m.
Proof. destruct o as [[|c t]|]; intros [= <-]; done. Qed.

Lemma step_error (s : State) (e : Event) :
  truthy (error s) <> None -> truthy (error (step s e)) <> None.
Proof.
  intros Hs. destruct e; step_cases; try done.
  match goal with H : truthy _ = Some _ |- _ => by rewrite (truthy_Some _ _ H) end.
Qed.

Lemma run_error (tr : list Event) (s : State) :
  truthy (error s) <> None -> truthy (error (run s tr)) <> None.
Proof.
  revert s. induction tr as [|e tr IH]; intros s Hs; [done|].
  change (run s (e :: tr)) with (run (step s e) tr). by apply IH, step_error.
Qed.

(** X4. An error is never cleared: once the status badge reads "Error" it
    reads "Error" after every further event, a re-opened connection
    included. *)
Theorem error_is_sticky (tr : list Event) (s : State) :
  statusLabel s = "Error" -> statusLabel (run s tr) = "Error".
Proof.
  assert (forall s0 : State, statusLabel s0 = "Error" <-> truthy (error s0) <> None)
    as Hlabel.
  { intros s0. unfold statusLabel.
    destruct (truthy (error s0)); [done|]. by destruct (isConnected s0). }
  intros Hs%Hlabel. by apply Hlabel, run_error.
Qed.

(** What one turn of the event loop leaves untouched once [cleanup] has run
    and the component is not mounted again. *)
Lemma torn_down_step (s : State) (e : Event) :
  is_mount e = false -> torn_down s ->
  torn_down (step s e) /\
  scheduled (effects (step s e)) = scheduled (effects s) /\
  sent (effects (step s e)) = sent (effects s) /\
  released (effects (step s e)) = released (effects s) /\
  transcriptRef (step s e) = transcriptRef s /\
  nextStartTimeRef (step s e) = nextStartTimeRef s.
Proof.
  intros He (H1 & H2 & H3 & H4 & H5 & H6).
  assert (releases s = []) as Hrel by (by apply releases_cleared).
  unfold torn_down.
  destruct e; try done; step_cases;
    rewrite ?Hrel, ?H6, ?scheduled_app, ?sent_app, ?released_app, ?app_nil_r;
    simpl; rewrite ?app_nil_r;
    try (split_and!; (done || congruence || set_solver)).
Qed.

(** What a session whose microphone request was rejected keeps true. *)
Lemma denied_step (s : State) (e : Event) :
  is_mount e = false ->
  callbacks s = None /\ processorRef s = None ->
  (callbacks (step s e) = None /\ processorRef (step s e) = None) /\
  isConnected (step s e) = isConnected s /\
  scheduled (effects (step s e)) = scheduled (effects s) /\
  sent (effects (step s e)) = sent (effects s) /\
  transcriptRef (step s e) = transcriptRef s.
Proof.
  intros He [H1 H2].
  destruct e; try done; step_cases;
    rewrite ?scheduled_app, ?sent_app, ?scheduled_releases, ?sent_releases,
      ?app_nil_r; simpl; rewrite ?app_nil_r;
    try (split_and!; (done || congruence)).
Qed.

(** X6. When the microphone request is rejected, the error is logged and
    shown, the connection callbacks are never registered, and, until a new
    mount, the session never connects, plays nothing, sends nothing and
    records nothing; the two audio contexts created before the request are
    closed by the unmount. *)
Theorem rejected_microphone_session_is_inert (env : ConnectEnv) (tr : list Event) :
  env_getUserMedia env = None ->
  Forall (fun e => is_mount e = false) tr ->
  let s := run initialState (EvMount env :: tr) in
  statusLabel s = "Error" /\ isConnected s = false /\ callbacks s = None /\
  scheduled (effects s) = [] /\ sent (effects s) = [] /\ transcriptRef s = "" /\
  effects (run initialState [EvMount env; EvUnmount]) =
    [ConsoleError "Connection failed:";
     ContextClose (env_inputContext env); ContextClose (env_outputContext env)].
Proof.
  intros Henv Hall s.
  set (s0 := step initialState (EvMount env)).
  assert (truthy (error s0) <> None) as Hlabel.
  { unfold s0. cbn [step]. unfold connectToLiveApi. rewrite Henv.
    cbn [error set_error emit].
    destruct (truthy (env_errorMessage env)) as [m|] eqn:E; [|done].
    by rewrite (truthy_Some _ _ E). }
  assert ((callbacks s0 = None /\ processorRef s0 = None) /\
          isConnected s0 = false /\ scheduled (effects s0) = [] /\
          sent (effects s0) = [] /\ transcriptRef s0 = "") as Hs0.
  { unfold s0. cbn [step]. unfold connectToLiveApi. rewrite Henv. done. }
  assert (forall s1 : State,
    (callbacks s1 = None /\ processorRef s1 = None) /\
    isConnected s1 = false /\ scheduled (effects s1) = [] /\
    sent (effects s1) = [] /\ transcriptRef s1 = "" ->
    (callbacks (run s1 tr) = None /\ processorRef (run s1 tr) = None) /\
    isConnected (run s1 tr) = false /\ scheduled (effects (run s1 tr)) = [] /\
    sent (effects (run s1 tr)) = [] /\ transcriptRef (run s1 tr) = "") as Hgen.
  { induction Hall as [|e tr He Hall IH]; intros s1 Hs1; [done|].
    change (run s1 (e :: tr)) with (run (step s1 e) tr). apply IH.
    destruct Hs1 as (K & H1 & H2 & H3 & H4).
    destruct (denied_step s1 e He K) as (K' & E1 & E2 & E3 & E4).
    rewrite E1, E2, E3, E4. done. }
  change s with (run s0 tr).
  destruct (Hgen s0 Hs0) as ((G1 & _) & G2 & G3 & G4 & G5).
  split_and!; try done.
  - unfold statusLabel.
    by destruct (truthy (error (run s0 tr))) eqn:E;
      [|destruct (run_error tr s0 Hlabel)].
  - change (run initialState [EvMount env; EvUnmount])
      with (cleanup (connectToLiveApi (render initialState) env initialState)).
    rewrite cleanup_eq. unfold releases, connectToLiveApi. rewrite Henv. simpl.
    by rewrite elements_empty.
Qed.


Lemma started_app (es1 es2 : list Effect) :
  started (es1 ++ es2) = started es1 ++ started es2.
Proof. apply flat_map_app. Qed.

Lemma stopped_app (es1 es2 : list Effect) :
  stopped (es1 ++ es2) = stopped es1 ++ stopped es2.
Proof. apply flat_map_app. Qed.

Lemma started_SourceStop (hs : list positive) : started (map SourceStop hs) = [].
Proof. induction hs; simpl; auto. Qed.

Lemma started_TrackStop (ts : list positive) : started (map TrackStop ts) = [].
Proof. induction ts; simpl; auto. Qed.

Lemma stopped_SourceStop (hs : list positive) : stopped (map SourceStop hs) = hs.
Proof. induction hs as [|h hs IH]; simpl; [done|]. by rewrite IH. Qed.

Lemma stopped_TrackStop (ts : list positive) : stopped (map TrackStop ts) = [].
Proof. induction ts; simpl; auto. Qed.

Lemma started_releases (s : State) : started (releases s) = [].
Proof.
  unfold releases. rewrite !started_app, started_SourceStop.
  destruct (processorRef s), (sourceRef s), (streamRef s), (inputContextRef s),
    (audioContextRef s); simpl; rewrite ?started_TrackStop; done.
Qed.

Lemma stopped_releases (s : State) :
  stopped (releases s) = elements (sourcesRef s).
Proof.
  unfold releases. rewrite !stopped_app, stopped_SourceStop.
  destruct (processorRef s), (sourceRef s), (streamRef s), (inputContextRef s),
    (audioContextRef s); simpl; rewrite ?stopped_TrackStop; done.
Qed.

(** A transition that starts no source, stops only active sources, does not
    enlarge the active set and does not reuse node identities. *)
Lemma handles_inv_quiet (s s' : State) (es : list Effect) :
  handles_inv s ->
  effects s' = effects s ++ es -> started es = [] ->
  (forall h, h ∈ stopped es -> h ∈ sourcesRef s) ->
  (nextNode s <= nextNode s')%positive ->
  (forall h, h ∈ sourcesRef s' -> h ∈ sourcesRef s) ->
  handles_inv s'.
Proof.
  intros (I1 & I2 & I3 & I4) He Hst Hsp Hn Hsub.
  unfold handles_inv. rewrite He, started_app, stopped_app, Hst, app_nil_r.
  split_and!; [|done| |].
  - intros h Hh. specialize (I1 h Hh). lia.
  - intros h Hh. by apply I3, Hsub.
  - intros h [Hh|Hh]%elem_of_app; [by apply I4|by apply I3, Hsp].
Qed.

(** A transition that starts one source on a fresh node. *)
Lemma handles_inv_start (s s' : State) (t : Q) (b : AudioBuffer) :
  handles_inv s ->
  effects s' = effects s ++ [SourceStart (nextNode s) t b] ->
  nextNode s' = Pos.succ (nextNode s) ->
  sourcesRef s' = {[nextNode s]} ∪ sourcesRef s ->
  handles_inv s'.
Proof.
  intros (I1 & I2 & I3 & I4) He Hn Hsrc.
  unfold handles_inv. rewrite He, Hn, Hsrc, started_app, stopped_app. simpl.
  rewrite app_nil_r. split_and!.
  - intros h [Hh|Hh%list_elem_of_singleton]%elem_of_app.
    + specialize (I1 h Hh). lia.
    + subst. lia.
  - apply NoDup_app. split_and!; [done| |apply NoDup_singleton].
    intros h Hh Hh'%list_elem_of_singleton. subst.
    specialize (I1 _ Hh). lia.
  - intros h [Hh%elem_of_singleton|Hh]%elem_of_union; apply elem_of_app.
    + right. subst. by apply list_elem_of_singleton.
    + left. by apply I3.
  - intros h Hh. apply elem_of_app. left. by apply I4.
Qed.

Lemma handles_inv_step (s : State) (e : Event) :
  handles_inv s -> handles_inv (step s e).
Proof.
  intros Hs.
  destruct e; step_cases; try done;
    first
    [ eapply (handles_inv_start s); [done|simpl; reflexivity|done|done]
    | eapply (handles_inv_quiet s _ (releases s ++ [OnEndSession (transcriptRef s)]));
        [done|simpl; by rewrite app_assoc
        |by rewrite started_app, started_releases
        |rewrite stopped_app, stopped_releases, app_nil_r; intros h;
           by rewrite elem_of_elements
        |simpl; lia|simpl; set_solver]
    | eapply (handles_inv_quiet s _ (releases s));
        [done|done|by rewrite started_releases
        |rewrite stopped_releases; intros h; by rewrite elem_of_elements
        |simpl; lia|simpl; set_solver]
    | eapply (handles_inv_quiet s _ (map SourceStop (elements (sourcesRef s))));
        [done|done|by rewrite started_SourceStop
        |rewrite stopped_SourceStop; intros h; by rewrite elem_of_elements
        |simpl; lia|simpl; set_solver]
    | eapply (handles_inv_quiet s _ [_]);
        [done|simpl; reflexivity|done|simpl; set_solver|simpl; lia|simpl; set_solver]
    | eapply (handles_inv_quiet s _ []);
        [done|simpl; by rewrite app_nil_r|done|simpl; set_solver|simpl; lia
        |simpl; set_solver] ].
Qed.

(** X7. In every state the component reaches, no source node has been
    started twice, every handle of the active set has been started, and
    only started sources have been stopped. *)
Theorem playback_handles_are_fresh_and_started (tr : list Event) :
  let s := run initialState tr in
  NoDup (started (effects s)) /\
  (forall h, h ∈ sourcesRef s -> h ∈ started (effects s)) /\
  (forall h, h ∈ stopped (effects s) -> h ∈ started (effects s)).
Proof.
  assert (forall s0 : State, handles_inv s0 -> handles_inv (run s0 tr)) as Hgen.
  { induction tr as [|e tr IH]; intros s0 Hs0; [done|].
    change (run s0 (e :: tr)) with (run (step s0 e) tr).
    by apply IH, handles_inv_step. }
  assert (handles_inv initialState) as Hinit.
  { unfold handles_inv. simpl. split_and!.
    - by intros h Hh%elem_of_nil.
    - constructor.
    - by intros h Hh%elem_of_empty.
    - by intros h Hh%elem_of_nil. }
  destruct (Hgen initialState Hinit) as (_ & H1 & H2 & H3). done.
Qed.

Lemma chain_end_ge (lo : Q) (l : list (Q * Q)) :
  chain lo l -> (lo <= chain_end lo l)%Q.
Proof.
  revert lo. induction l as [|[t d] r IH]; intros lo; simpl; [lra|].
  intros (Ht & Hd & Hr). specialize (IH _ Hr). lra.
Qed.

(** X8. Between interruptions the scheduling pointer never moves back:
    along every run without an interrupted message, [nextStartTime] at the
    end is at least what it was at the start. *)
Theorem nextStartTime_never_decreases (tr : list Event) (s : State) :
  Forall no_interruption tr ->
  (nextStartTimeRef s <= nextStartTimeRef (run s tr))%Q.
Proof.
  intros Hall. destruct (run_chain tr s Hall) as (new & _ & Hc & Hle).
  pose proof (chain_end_ge _ _ Hc). lra.
Qed.


(** What scheduling a buffer leaves as it was, and the node it uses. *)
Lemma handleServerMessage_schedules_frame (s0 : State) (m : LiveServerMessage)
    (now : Q) (sc : ServerContent) (ctx : positive) (b64 : string)
    (buf : AudioBuffer) :
  serverContent m = Some sc -> interrupted sc = false ->
  audioContextRef s0 = Some ctx -> base64Audio sc = Some b64 ->
  decodeAudioData (base64ToUint8Array b64) ctx 24000 1 = Some buf ->
  audioContextRef (handleServerMessage m now s0) = Some ctx /\
  nextNode (handleServerMessage m now s0) = Pos.succ (nextNode s0) /\
  callbacks (handleServerMessage m now s0) = callbacks s0 /\
  timers (handleServerMessage m now s0) = timers s0.
Proof.
  intros Hsc Hint Hctx Hb64 Hdec.
  unfold handleServerMessage. rewrite Hsc, Hctx, Hint, handleTranscripts_eq.
  unfold handleAudioOutput. rewrite Hb64, Hdec.
  unfold scheduleBuffer. by destruct (negb _).
Qed.

(** X9. Two buffers in a row: when the second arrives before the first has
    finished it is started exactly where the first ends, not at its arrival
    time, and the pointer ends at the first start plus both durations; when
    it arrives after the first has finished it is started at its arrival
    time. *)
Theorem back_to_back_buffers (s : State) (m1 m2 : LiveServerMessage)
    (now1 now2 : Q) (sc1 sc2 : ServerContent) (ctx : positive)
    (b1 b2 : string) (buf1 buf2 : AudioBuffer) :
  audioContextRef s = Some ctx ->
  serverContent m1 = Some sc1 -> interrupted sc1 = false ->
  base64Audio sc1 = Some b1 ->
  decodeAudioData (base64ToUint8Array b1) ctx 24000 1 = Some buf1 ->
  serverContent m2 = Some sc2 -> interrupted sc2 = false ->
  base64Audio sc2 = Some b2 ->
  decodeAudioData (base64ToUint8Array b2) ctx 24000 1 = Some buf2 ->
  let start1 := if negb (Qle_bool now1 (nextStartTimeRef s)) then now1
                else nextStartTimeRef s in
  let s2 := handleServerMessage m2 now2 (handleServerMessage m1 now1 s) in
  ((now2 <= start1 + duration buf1)%Q ->
   effects s2 = effects s ++
     [SourceStart (nextNode s) start1 buf1;
      SourceStart (Pos.succ (nextNode s)) (start1 + duration buf1)%Q buf2] /\
   nextStartTimeRef s2 = (start1 + duration buf1 + duration buf2)%Q) /\
  ((start1 + duration buf1 < now2)%Q ->
   effects s2 = effects s ++
     [SourceStart (nextNode s) start1 buf1;
      SourceStart (Pos.succ (nextNode s)) now2 buf2] /\
   nextStartTimeRef s2 = (now2 + duration buf2)%Q).
Proof.
  intros Hctx Hsc1 Hint1 Hb1 Hd1 Hsc2 Hint2 Hb2 Hd2 start1 s2.
  destruct (handleServerMessage_schedules s m1 now1 sc1 ctx b1 buf1)
    as (E1 & N1 & _); try done.
  destruct (handleServerMessage_schedules_frame s m1 now1 sc1 ctx b1 buf1)
    as (C1 & K1 & _); try done.
  destruct (handleServerMessage_schedules (handleServerMessage m1 now1 s)
              m2 now2 sc2 ctx b2 buf2) as (E2 & N2 & _); try done.
  fold s2 in E2, N2. fold start1 in E1, N1.
  rewrite E1, N1, K1, <- app_assoc in E2. rewrite N1 in N2. simpl in E2.
  split.
  - intros Hle. apply Qle_bool_iff in Hle. rewrite Hle in E2, N2. done.
  - intros Hlt.
    assert (Qle_bool now2 (start1 + duration buf1) = false) as Hf.
    { destruct (Qle_bool now2 (start1 + duration buf1)) eqn:E; [|done].
      apply Qle_bool_iff in E. lra. }
    rewrite Hf in E2, N2. done.
Qed.

(** An interruption and a buffer handled one right after the other: the
    buffer starts at the clock time read when it is scheduled. *)
Lemma interruption_then_buffer (s : State)
    (mi m : LiveServerMessage) (nowi now : Q) (sci sc : ServerContent)
    (ctx : positive) (b64 : string) (buf : AudioBuffer) :
  audioContextRef s = Some ctx ->
  serverContent mi = Some sci -> interrupted sci = true ->
  serverContent m = Some sc -> interrupted sc = false ->
  base64Audio sc = Some b64 ->
  decodeAudioData (base64ToUint8Array b64) ctx 24000 1 = Some buf ->
  (0 <= now)%Q ->
  let s2 := handleServerMessage m now (handleServerMessage mi nowi s) in
  exists start,
    effects s2 = effects s ++ map SourceStop (elements (sourcesRef s)) ++
                   [SourceStart (nextNode s) start buf] /\
    (start == now)%Q /\
    sourcesRef s2 = {[nextNode s]} /\
    (nextStartTimeRef s2 == now + duration buf)%Q.
Proof.
  intros Hctx Hsci Hinti Hsc Hint Hb64 Hdec Hnow s2.
  set (s1 := handleServerMessage mi nowi s).
  assert (s1 = handleInterruption s) as Hs1.
  { unfold s1, handleServerMessage. by rewrite Hsci, Hctx, Hinti. }
  rewrite handleInterruption_eq in Hs1.
  destruct (handleServerMessage_schedules s1 m now sc ctx b64 buf)
    as (E & N & S & _); try done.
  { by rewrite Hs1. }
  assert (effects s1 = effects s ++ map SourceStop (elements (sourcesRef s)) /\
          nextStartTimeRef s1 = 0%Q /\ sourcesRef s1 = ∅ /\
          nextNode s1 = nextNode s) as (F1 & F2 & F3 & F4) by (by rewrite Hs1).
  unfold s2. fold s1. rewrite E, N, S, F1, F2, F3, F4, <- app_assoc.
  eexists. split_and!; [done| | |].
  - destruct (Qle_bool now 0) eqn:El; simpl; [|done].
    apply Qle_bool_iff in El. lra.
  - set_solver.
  - destruct (Qle_bool now 0) eqn:El; simpl; [|lra].
    apply Qle_bool_iff in El. lra.
Qed.

(** X11. The grace window at work: when the last active buffer ends and the
    timer then fires, "AI is speaking" is cleared; when a buffer is
    scheduled between the end of the last one and the timer, the timer
    leaves the state on. *)
Theorem grace_window_bridges_buffers (s : State) (h : positive) (r : Render)
    (ctx : positive) :
  sourcesRef s = {[h]} -> callbacks s = Some r -> audioContextRef s = Some ctx ->
  isAiSpeaking (run s [EvEnded h; EvTimeout]) = false /\
  (forall m now sc b64 buf,
     serverContent m = Some sc -> interrupted sc = false ->
     base64Audio sc = Some b64 ->
     decodeAudioData (base64ToUint8Array b64) ctx 24000 1 = Some buf ->
     let s' := run s [EvEnded h; EvMessage m now; EvTimeout] in
     isAiSpeaking s' = true /\ sourcesRef s' = {[nextNode s]} /\
     timers s' = timers s).
Proof.
  intros Hsrc Hcb Hctx.
  assert ({[h]} ∖ {[h]} = (∅ : gset positive)) as Hempty by set_solver.
  assert (step s (EvEnded h) =
          s |> set_sourcesRef ∅ |> emit (SetTimeout 200) |> set_timers (S (timers s)))
    as Hended.
  { cbn [step]. unfold onended. rewrite Hsrc, Hempty.
    cbn [sourcesRef set_sourcesRef]. rewrite size_empty. by case_decide. }
  split.
  - change (run s [EvEnded h; EvTimeout])
      with (step (step s (EvEnded h)) EvTimeout).
    rewrite Hended. cbn [step timers set_timers]. unfold debounceElapsed.
    cbn [sourcesRef set_sourcesRef set_timers emit]. rewrite size_empty.
    by case_decide.
  - intros m now sc b64 buf Hsc Hint Hb64 Hdec.
    change (run s [EvEnded h; EvMessage m now; EvTimeout])
      with (step (step (step s (EvEnded h)) (EvMessage m now)) EvTimeout).
    rewrite Hended. set (s1 := s |> set_sourcesRef ∅ |> emit (SetTimeout 200)
                                  |> set_timers (S (timers s))).
    destruct (handleServerMessage_schedules s1 m now sc ctx b64 buf)
      as (_ & _ & Hsr & A); try done.
    destruct (handleServerMessage_schedules_frame s1 m now sc ctx b64 buf)
      as (_ & _ & _ & T); try done.
    assert (step s1 (EvMessage m now) = handleServerMessage m now s1) as ->.
    { cbn [step]. unfold s1. simpl. by rewrite Hcb. }
    set (s2 := handleServerMessage m now s1) in *.
    assert (timers s1 = S (timers s) /\ sourcesRef s1 = ∅ /\ nextNode s1 = nextNode s)
      as (F1 & F2 & F3) by done.
    rewrite F1 in T. rewrite F2, F3 in Hsr.
    assert (sourcesRef s2 = {[nextNode s]}) as S' by (rewrite Hsr; set_solver).
    cbn [step]. rewrite T. unfold debounceElapsed.
    cbn [sourcesRef set_timers isAiSpeaking timers]. rewrite S', size_singleton.
    case_decide; [done|]. cbn [sourcesRef set_timers isAiSpeaking timers]. done.
Qed.

Lemma speaking_stays_on_step (s : State) (e : Event) :
  is_message e = false -> is_ended e = false ->
  isAiSpeaking s = true /\ timers s = 0 ->
  isAiSpeaking (step s e) = true /\ timers (step s e) = 0.
Proof.
  intros H1 H2 [Hs Ht]. destruct e; try done; step_cases; try done; congruence.
Qed.

(** X12. A decode failure leaves the indicator on: the state was set before
    the decode and no playback exists to clear it, so with no debounce timer
    pending "AI is speaking" stays true until another message or a playback
    event arrives. *)
Theorem failed_decode_leaves_indicator_on (s : State) (m : LiveServerMessage)
    (now : Q) (sc : ServerContent) (ctx : positive) (b64 : string)
    (tr : list Event) :
  serverContent m = Some sc -> interrupted sc = false ->
  audioContextRef s = Some ctx -> base64Audio sc = Some b64 ->
  decodeAudioData (base64ToUint8Array b64) ctx 24000 1 = None ->
  timers s = 0 ->
  Forall (fun e => is_message e = false /\ is_ended e = false) tr ->
  isAiSpeaking (run (handleServerMessage m now s) tr) = true.
Proof.
  intros Hsc Hint Hctx Hb64 Hdec Ht Hall.
  set (s1 := handleServerMessage m now s).
  assert (isAiSpeaking s1 = true /\ timers s1 = 0) as Hs1.
  { unfold s1, handleServerMessage. rewrite Hsc, Hctx, Hint, handleTranscripts_eq.
    unfold handleAudioOutput. by rewrite Hb64, Hdec. }
  clearbody s1. revert s1 Hs1.
  induction Hall as [|e tr [He1 He2] Hall IH]; intros s1 Hs1; [by destruct Hs1|].
  change (run s1 (e :: tr)) with (run (step s1 e) tr).
  by apply IH, speaking_stays_on_step.
Qed.


(** X18. Interruptions do not pile up: a second interrupted message right
    after the first stops nothing further and leaves the state exactly as
    the first one left it. *)
Theorem interruption_is_idempotent (s : State) (m1 m2 : LiveServerMessage)
    (now1 now2 : Q) (sc1 sc2 : ServerContent) :
  serverContent m1 = Some sc1 -> interrupted sc1 = true ->
  serverContent m2 = Some sc2 -> interrupted sc2 = true ->
  handleServerMessage m2 now2 (handleServerMessage m1 now1 s) =
    handleServerMessage m1 now1 s.
Proof.
  intros Hsc1 Hint1 Hsc2 Hint2. unfold handleServerMessage.
  rewrite Hsc1, Hsc2, Hint1, Hint2.
  destruct (audioContextRef s) as [ctx|] eqn:Hctx; [|by rewrite Hctx].
  rewrite (handleInterruption_eq s). cbn [audioContextRef]. rewrite Hctx.
  rewrite handleInterruption_eq. simpl. by rewrite elements_empty, app_nil_r.
Qed.

End SessionExtras.

Lemma end_session_hands_over_transcript_witness :
  let s := run (utils := testUtils) initialState [EvMount testEnv; EvOpen] in
  (callbacks s <> None /\ audioContextRef s <> None /\
   Forall (fun ev : Speaker * string => snd ev <> "") abcEvents) /\
  last (effects (run (utils := testUtils) s
                   (transcriptionTrace abcEvents 1 ++ [EvEndSession]))) =
    Some (OnEndSession (transcriptRef s ++ renderTranscript abcEvents)%string).
Proof.
  intros s.
  assert (callbacks s <> None) as H1 by (vm_compute; discriminate).
  assert (audioContextRef s <> None) as H2 by (vm_compute; discriminate).
  assert (Forall (fun ev : Speaker * string => snd ev <> "") abcEvents) as H3
    by (repeat constructor; discriminate).
  split; [by split_and!|].
  exact (end_session_hands_over_transcript (utils := testUtils) abcEvents 1 s H1 H2 H3).
Defined.

Lemma no_capture_before_open_witness :
  Forall (fun e => is_open e = false)
    [EvMount testEnv; EvAudioProcess window1; EvToggleMute] /\
  sent (effects (run (utils := testUtils) initialState
                   [EvMount testEnv; EvAudioProcess window1; EvToggleMute])) = [].
Proof.
  assert (Forall (fun e => is_open e = false)
            [EvMount testEnv; EvAudioProcess window1; EvToggleMute]) as H
    by (repeat constructor).
  split; [exact H|].
  exact (proj2 (proj2 (proj2 (no_capture_before_open (utils := testUtils) _ H)))).
Defined.

Lemma error_is_sticky_witness :
  let s := run (utils := testUtils) initialState erroredTrace in
  statusLabel s = "Error" /\
  statusLabel (run (utils := testUtils) s [EvOpen; EvClose; EvOpen]) = "Error".
Proof.
  intros s.
  assert (statusLabel s = "Error") as H by (vm_compute; reflexivity).
  split; [exact H|].
  exact (error_is_sticky (utils := testUtils) [EvOpen; EvClose; EvOpen] s H).
Defined.

Lemma rejected_microphone_session_is_inert_witness :
  let tr := [EvOpen; EvMessage (audioMessage "abcd") 1; EvAudioProcess window1] in
  (env_getUserMedia deniedEnv = None /\ Forall (fun e => is_mount e = false) tr) /\
  statusLabel (run (utils := testUtils) initialState (EvMount deniedEnv :: tr)) = "Error" /\
  sent (effects (run (utils := testUtils) initialState (EvMount deniedEnv :: tr))) = [].
Proof.
  intros tr.
  assert (env_getUserMedia deniedEnv = None) as H1 by reflexivity.
  assert (Forall (fun e => is_mount e = false) tr) as H2 by (repeat constructor).
  split; [by split|].
  destruct (rejected_microphone_session_is_inert (utils := testUtils) deniedEnv tr H1 H2)
    as (E1 & _ & _ & _ & E2 & _).
  split; [exact E1 | exact E2].
Defined.

Lemma nextStartTime_never_decreases_witness :
  Forall no_interruption playingTrace /\
  (nextStartTimeRef initialState <=
   nextStartTimeRef (run (utils := testUtils) initialState playingTrace))%Q.
Proof.
  assert (Forall no_interruption playingTrace) as H by (repeat constructor).
  split; [exact H|].
  exact (nextStartTime_never_decreases (utils := testUtils) playingTrace initialState H).
Defined.

Lemma back_to_back_buffers_witness :
  let s := run (utils := testUtils) initialState [EvMount testEnv; EvOpen] in
  let s2 := handleServerMessage (utils := testUtils) (audioMessage "efgh") (1 # 2)
              (handleServerMessage (utils := testUtils) (audioMessage "abcd") (1 # 2) s) in
  (audioContextRef s = Some 2%positive /\
   (1 # 2 <= (1 # 2) + duration (mkAudioBuffer 2 24000 1))%Q) /\
  effects s2 = effects s ++
    [SourceStart 3 (1 # 2) (mkAudioBuffer 2 24000 1);
     SourceStart 4 ((1 # 2) + duration (mkAudioBuffer 2 24000 1))%Q
       (mkAudioBuffer 2 24000 1)].
Proof.
  intros s s2.
  assert (audioContextRef s = Some 2%positive) as H1 by (vm_compute; reflexivity).
  assert (1 # 2 <= (1 # 2) + duration (mkAudioBuffer 2 24000 1))%Q as H2
    by (vm_compute; discriminate).
  split; [by split|].
  destruct (back_to_back_buffers (utils := testUtils) s
              (audioMessage "abcd") (audioMessage "efgh") (1 # 2) (1 # 2)
              _ _ 2%positive _ _ (mkAudioBuffer 2 24000 1) (mkAudioBuffer 2 24000 1)
              H1 eq_refl eq_refl eq_refl eq_refl eq_refl eq_refl eq_refl eq_refl)
    as [Hearly _].
  exact (proj1 (Hearly H2)).
Defined.

Lemma grace_window_bridges_buffers_witness :
  let s := run (utils := testUtils) initialState
             [EvMount testEnv; EvOpen; EvMessage (audioMessage "abcd") (1 # 2)] in
  (sourcesRef s = {[3%positive]} /\ callbacks s = Some (mkRender false) /\
   audioContextRef s = Some 2%positive) /\
  isAiSpeaking (run (utils := testUtils) s [EvEnded 3; EvTimeout]) = false.
Proof.
  intros s.
  assert (sourcesRef s = {[3%positive]}) as H1 by (vm_compute; reflexivity).
  assert (callbacks s = Some (mkRender false)) as H2 by (vm_compute; reflexivity).
  assert (audioContextRef s = Some 2%positive) as H3 by (vm_compute; reflexivity).
  split; [by split_and!|].
  exact (proj1 (grace_window_bridges_buffers (utils := testUtils) s 3 _ 2 H1 H2 H3)).
Defined.

Lemma failed_decode_leaves_indicator_on_witness :
  let s := run (utils := testUtils) initialState [EvMount testEnv; EvOpen] in
  let tr := [EvTimeout; EvAudioProcess window1; EvTimeout] in
  (audioContextRef s = Some 2%positive /\ timers s = 0 /\
   decodeAudioData (AudioUtils := testUtils)
     (base64ToUint8Array (AudioUtils := testUtils) "abc") 2 24000 1 = None /\
   Forall (fun e => is_message e = false /\ is_ended e = false) tr) /\
  isAiSpeaking (run (utils := testUtils)
                  (handleServerMessage (utils := testUtils) (audioMessage "abc") 1 s)
                  tr) = true.
Proof.
  intros s tr.
  assert (audioContextRef s = Some 2%positive) as H1 by (vm_compute; reflexivity).
  assert (timers s = 0) as H2 by (vm_compute; reflexivity).
  assert (Forall (fun e => is_message e = false /\ is_ended e = false) tr) as H3
    by (repeat constructor).
  split; [by split_and!|].
  exact (failed_decode_leaves_indicator_on (utils := testUtils) s (audioMessage "abc")
           1 _ 2 _ tr eq_refl eq_refl H1 eq_refl eq_refl H2 H3).
Defined.

Lemma interruption_is_idempotent_witness :
  let s := run (utils := testUtils) initialState playingTrace in
  (serverContent interruptedMessage = Some (mkServerContent true None None None) /\
   interrupted (mkServerContent true None None None) = true) /\
  handleServerMessage (utils := testUtils) (loadedInterruption "hello" "abcd") 2
    (handleServerMessage (utils := testUtils) interruptedMessage 1 s) =
  handleServerMessage (utils := testUtils) interruptedMessage 1 s.
Proof.
  intros s. split; [by split|].
  exact (interruption_is_idempotent (utils := testUtils) s interruptedMessage
           (loadedInterruption "hello" "abcd") 1 2 _ _
           eq_refl eq_refl eq_refl eq_refl).
Defined.

(** * The application shell and the plan service *)

Module AppFacts.
Import App.

Section AppProperties.
Variable JSON_parse : string -> option UserPlan.

Lemma app_inv_step (a : AppState) (e : AppEvent) :
  app_inv a -> app_inv (appStep JSON_parse a e).
Proof.
  intros Ha. pose proof Ha as (I1 & I2 & I3 & I4). unfold appStep.
  destruct e as [|i|transcript generateContent].
  - destruct (mode a) eqn:Hm; try done.
    unfold app_inv. simpl. split_and!; try done. intros _. by apply I2.
  - destruct (mode a) eqn:Hm; try done.
    destruct (userPlan a) as [plan|] eqn:Hp; [|done].
    destruct (scenarios plan !! i) as [scenario|] eqn:Hs; [|done].
    unfold app_inv. simpl. split_and!; try done.
    intros _. exists plan, scenario. split_and!; try done.
    by apply list_elem_of_lookup_2 with i.
  - destruct (mode a) eqn:Hm; try done; unfold handleSessionEnd, app_inv.
    destruct (generateTrainingPlan JSON_parse generateContent transcript);
      simpl; split_and!; try done; intros _; by apply I2.
Qed.

(** X16. In every state the application reaches, practice mode has a
    selected scenario, and that scenario belongs to the installed plan, so
    that the practice configuration is always built from a real scenario;
    outside practice mode no scenario is selected; and once a handler has
    run to completion the application is not left in the plan-generation
    mode or with the spinner flag on. *)
Theorem practice_mode_has_a_scenario_of_the_plan (tr : list AppEvent) :
  let a := appRun JSON_parse initialApp tr in
  (mode a = PRACTICE ->
   exists plan scenario,
     userPlan a = Some plan /\ currentScenario a = Some scenario /\
     scenario ∈ scenarios plan) /\
  (mode a <> PRACTICE -> currentScenario a = None) /\
  mode a <> GENERATING_PLAN /\
  isGeneratingPlan a = false.
Proof.
  assert (forall a0, app_inv a0 -> app_inv (appRun JSON_parse a0 tr)) as Hgen.
  { induction tr as [|e tr IH]; intros a0 Ha0; [done|].
    change (appRun JSON_parse a0 (e :: tr))
      with (appRun JSON_parse (appStep JSON_parse a0 e) tr).
    by apply IH, app_inv_step. }
  apply Hgen. by split_and!.
Qed.

End AppProperties.
End AppFacts.

(** * Handlers suspended at an [await] *)

Section SuspensionFacts.
Context {utils : AudioUtils}.

(** [step] is the run in which what a handler awaits settles before any
    other callback runs. *)
Lemma connectToLiveApi_split (r : Render) (env : ConnectEnv) (s : State) :
  connectToLiveApi r env s = resumeConnect r env (beginConnect env s).
Proof. reflexivity. Qed.

Lemma handleServerMessage_split (m : LiveServerMessage) (now : Q) (s : State) :
  handleServerMessage m now s =
    match beginMessage m s with
    | (s', Some p) => resumeDecode p now s'
    | (s', None) => s'
    end.
Proof.
  unfold handleServerMessage, beginMessage, handleAudioOutput, resumeDecode.
  destruct (serverContent m) as [sc|]; [|done].
  destruct (audioContextRef s) as [ctx|]; [|done].
  destruct (interrupted sc); [done|].
  by destruct (base64Audio sc).
Qed.

Lemma settled_at_once (a : Async) (m : LiveServerMessage) (now : Q)
    (env : ConnectEnv) :
  arun a [MessageArrives m; DecodeSettles (length (decoding a)) now] =
    astep a (Sync (EvMessage m now)) /\
  (connecting a = None ->
   arun a [MountBegins env; MediaSettles] = astep a (Sync (EvMount env))).
Proof.
  destruct a as [s ds c]. split.
  - cbn [arun fold_left astep core decoding connecting step].
    destruct (callbacks s) as [r|].
    + rewrite handleServerMessage_split.
      destruct (beginMessage m s) as [s' [p|]]; cbn [option_list core decoding connecting].
      * change (option_list (Some p)) with [p].
        rewrite list_lookup_middle by done.
        by rewrite delete_middle, app_nil_r.
      * rewrite app_nil_r, lookup_ge_None_2 by done. done.
    + by rewrite lookup_ge_None_2.
  - cbn [connecting]. intros ->. done.
Qed.

(** One turn keeps "AI is speaking" on while the component is busy. *)
Lemma speaking_astep (a : Async) (e : AsyncEvent) :
  undisturbed a e -> speaking_while_busy a -> speaking_while_busy (astep a e).
Proof.
  intros He Ha.
  assert (forall a' : Async,
    (sourcesRef (core a') <> ∅ -> sourcesRef (core a) <> ∅) ->
    decoding a' = decoding a ->
    isAiSpeaking (core a') = isAiSpeaking (core a) ->
    speaking_while_busy a') as Hless.
  { intros a' E1 E2 E3 Hbusy. rewrite E3. apply Ha. rewrite E2 in Hbusy.
    destruct Hbusy; [left|right]; auto. }
  assert (forall a' : Async,
    isAiSpeaking (core a') = true -> speaking_while_busy a') as Htrue.
  { by intros a' E _. }
  assert (forall a' : Async,
    sourcesRef (core a') = ∅ -> decoding a' = [] -> speaking_while_busy a') as Hidle.
  { intros a' E1 E2 [H|H]; [by rewrite E1 in H | by rewrite E2 in H]. }
  destruct e as [e|env| |m|i now]; cbn [astep].
  - destruct e; cbn [step].
    + apply Hless; cbn [core decoding]; try done.
      all: unfold connectToLiveApi; by destruct (env_getUserMedia env).
    + destruct (callbacks (core a)); apply Hless; cbn [core decoding]; try done.
      all: unfold onopen, startAudioInput; simpl; by destruct (inputContextRef (core a)).
    + destruct He as [Hbare Hint]. cbn in Hbare, Hint.
      destruct (callbacks (core a)); [|by apply Hless].
      unfold handleServerMessage.
      destruct (serverContent message) as [sc|]; [|by apply Hless].
      destruct (audioContextRef (core a)) as [ctx|]; [|by apply Hless].
      destruct (interrupted sc) eqn:Ei.
      * rewrite handleInterruption_eq. apply Hidle; [done|].
        cbn [decoding]. by destruct Hint.
      * rewrite handleTranscripts_eq. unfold handleAudioOutput.
        destruct (base64Audio sc) as [b64|].
        -- apply Htrue. cbn [core].
           destruct (decodeAudioData _ _ _ _); [|done].
           unfold scheduleBuffer. by destruct (negb _).
        -- destruct (modelTurn_turnComplete sc); [by destruct Hbare|].
           by apply Hless.
    + destruct (callbacks (core a)); by apply Hless.
    + destruct (callbacks (core a)); by apply Hless.
    + destruct (processorRef (core a)) as [p|]; [|by apply Hless].
      unfold onaudioprocess. destruct (r_isMuted _); by apply Hless.
    + unfold onended. cbn [sourcesRef set_sourcesRef].
      case_decide; apply Hless; cbn; try done; set_solver.
    + cbn in He. destruct (timers (core a)); [by apply Hless|].
      unfold debounceElapsed. cbn [sourcesRef set_timers].
      case_decide as Hsz; [|by apply Hless].
      apply Hidle; [|done]. cbn. by apply size_empty_inv, leibniz_equiv in Hsz.
    + by apply Hless.
    + unfold handleEndSession. rewrite cleanup_eq. by apply Hless.
    + rewrite cleanup_eq. by apply Hless.
  - by apply Hless.
  - destruct (connecting a) as [[r env]|]; [|by apply Hless].
    apply Hless; cbn [core decoding]; try done.
    all: unfold resumeConnect; by destruct (env_getUserMedia env).
  - destruct He as [Hbare Hint]. cbn in Hbare, Hint.
    destruct (callbacks (core a)); [|by apply Hless].
    unfold beginMessage.
    destruct (serverContent m) as [sc|];
      [|apply Hless; cbn; by rewrite ?app_nil_r].
    destruct (audioContextRef (core a)) as [ctx|];
      [|apply Hless; cbn; by rewrite ?app_nil_r].
    destruct (interrupted sc) eqn:Ei.
    + rewrite handleInterruption_eq. apply Hidle; [done|].
      cbn. rewrite app_nil_r. by destruct Hint.
    + rewrite handleTranscripts_eq.
      destruct (base64Audio sc) as [b64|]; [by apply Htrue|].
      destruct (modelTurn_turnComplete sc); [by destruct Hbare|].
      apply Hless; cbn; by rewrite ?app_nil_r.
  - destruct (decoding a !! i) as [p|] eqn:Ep; [|by apply Hless].
    apply Htrue. cbn [core].
    assert (isAiSpeaking (core a) = true) as Hon.
    { apply Ha. right. intros Hnil. by rewrite Hnil in Ep. }
    unfold resumeDecode. destruct (decodeAudioData _ _ _ _); [|done].
    unfold scheduleBuffer. by destruct (negb _).
Qed.

Lemma speaking_arun (tr : list AsyncEvent) (a : Async) :
  admissible a tr -> speaking_while_busy a -> speaking_while_busy (arun a tr).
Proof.
  revert a. induction tr as [|e tr IH]; intros a Hadm Ha; [done|].
  destruct Hadm as [He Hadm]. apply IH; [done|]. by apply speaking_astep.
Qed.

(** C8 (amended). "AI is speaking" is switched on when a message with audio
    arrives, before the audio is decoded.  It stays on whenever a playback
    handle is active or a decode is pending, along every run in which no
    turn-complete message without audio arrives and in which no interruption
    and no debounce callback runs while a decode is pending.  The end of a
    playback never clears it: it removes the handle and, when the active set
    has become empty, arms a 200 ms timer; the timer clears the state only
    if the active set is empty when it fires.  A turn-complete message
    without audio clears the state at once, without a timer and whatever the
    active set holds. *)
Theorem C8_speaking_state (tr : list AsyncEvent) (a : Async) :
  admissible a tr -> speaking_while_busy a ->
  speaking_while_busy (arun a tr) /\
  (forall (a0 : Async) m r sc ctx b64,
     callbacks (core a0) = Some r ->
     serverContent m = Some sc -> audioContextRef (core a0) = Some ctx ->
     interrupted sc = false -> base64Audio sc = Some b64 ->
     let a' := astep a0 (MessageArrives m) in
     isAiSpeaking (core a') = true /\
     decoding a' = decoding a0 ++ [mkPendingDecode ctx (base64ToUint8Array b64)] /\
     sourcesRef (core a') = sourcesRef (core a0)) /\
  (forall (s0 : State) h,
     let s' := step s0 (EvEnded h) in
     isAiSpeaking s' = isAiSpeaking s0 /\
     sourcesRef s' = sourcesRef s0 ∖ {[h]} /\
     (sourcesRef s' = ∅ ->
      effects s' = effects s0 ++ [SetTimeout 200] /\ timers s' = S (timers s0)) /\
     (sourcesRef s' <> ∅ -> effects s' = effects s0 /\ timers s' = timers s0)) /\
  (forall s0 : State,
     let s' := step s0 EvTimeout in
     sourcesRef s' = sourcesRef s0 /\ effects s' = effects s0 /\
     isAiSpeaking s' =
       match timers s0 with
       | O => isAiSpeaking s0
       | S _ => if decide (sourcesRef s0 = ∅) then false else isAiSpeaking s0
       end) /\
  (forall (a0 : Async) m r sc ctx,
     callbacks (core a0) = Some r ->
     serverContent m = Some sc -> audioContextRef (core a0) = Some ctx ->
     interrupted sc = false -> modelTurn_turnComplete sc = true ->
     base64Audio sc = None ->
     let a' := astep a0 (MessageArrives m) in
     isAiSpeaking (core a') = false /\ sourcesRef (core a') = sourcesRef (core a0) /\
     timers (core a') = timers (core a0) /\ effects (core a') = effects (core a0) /\
     decoding a' = decoding a0).
Proof.
  intros Hadm Ha. split_and!.
  - by apply speaking_arun.
  - intros a0 m r sc ctx b64 Hcb Hsc Hctx Hint Hb64.
    cbn [astep]. rewrite Hcb. unfold beginMessage.
    rewrite Hsc, Hctx, Hint, handleTranscripts_eq, Hb64. done.
  - intros s0 h. cbn [step]. unfold onended. simpl.
    case_decide as Hsz; simpl; split_and!; try done.
    + intros Hne. apply size_empty_inv, leibniz_equiv in Hsz. done.
    + intros He. rewrite He, size_empty in Hsz. done.
  - intros s0. cbn [step]. destruct (timers s0); [done|].
    unfold debounceElapsed. simpl.
    case_decide as Hsz; case_decide as He; simpl; split_and!; try done.
    + apply size_empty_inv, leibniz_equiv in Hsz. done.
    + rewrite He, size_empty in Hsz. done.
  - intros a0 m r sc ctx Hcb Hsc Hctx Hint Htc Hb64.
    cbn [astep]. rewrite Hcb. unfold beginMessage.
    rewrite Hsc, Hctx, Hint, handleTranscripts_eq, Hb64, Htc.
    cbn. by rewrite app_nil_r.
Qed.

(** What one turn leaves untouched once [cleanup] has run with nothing
    suspended, the component not being mounted again. *)
Lemma torn_down_astep (a : Async) (e : AsyncEvent) :
  is_remount e = false ->
  torn_down (core a) -> decoding a = [] -> connecting a = None ->
  (torn_down (core (astep a e)) /\ decoding (astep a e) = [] /\
   connecting (astep a e) = None) /\
  scheduled (effects (core (astep a e))) = scheduled (effects (core a)) /\
  sent (effects (core (astep a e))) = sent (effects (core a)) /\
  released (effects (core (astep a e))) = released (effects (core a)) /\
  transcriptRef (core (astep a e)) = transcriptRef (core a) /\
  nextStartTimeRef (core (astep a e)) = nextStartTimeRef (core a).
Proof.
  intros He Ht Hd Hc. destruct e as [e|env| |m|i now]; cbn [astep].
  - assert (is_mount e = false) as He' by (by destruct e).
    destruct (torn_down_step (core a) e He' Ht) as (T & E1 & E2 & E3 & E4 & E5).
    by split_and!.
  - done.
  - by rewrite Hc.
  - destruct (callbacks (core a)); [|done].
    unfold beginMessage. pose proof Ht as (Hctx & _).
    rewrite Hctx. destruct (serverContent m); cbn; by rewrite Hd.
  - by rewrite Hd.
Qed.

(** X5. After the session has been ended or the component unmounted with no
    handler suspended (no decode and no microphone request pending), and as
    long as it is not mounted again, no event plays audio, sends a frame,
    releases a resource a second time or changes the transcript, and no
    handler is suspended again: inbound messages are dropped at the guard on
    the output context before anything is decoded, and a late [onopen] does
    not restart the capture. *)
Theorem nothing_happens_after_exit (a : Async) (e : Event) (tr : list AsyncEvent) :
  exit_event e -> decoding a = [] -> connecting a = None ->
  Forall (fun e' => is_remount e' = false) tr ->
  let a1 := astep a (Sync e) in
  let a2 := arun a1 tr in
  torn_down (core a2) /\ decoding a2 = [] /\ connecting a2 = None /\
  scheduled (effects (core a2)) = scheduled (effects (core a1)) /\
  sent (effects (core a2)) = sent (effects (core a1)) /\
  released (effects (core a2)) = released (effects (core a1)) /\
  transcriptRef (core a2) = transcriptRef (core a1) /\
  nextStartTimeRef (core a2) = nextStartTimeRef (core a1).
Proof.
  intros He Hd Hc Hall a1.
  assert (torn_down (core a1) /\ decoding a1 = [] /\ connecting a1 = None) as Ha1.
  { destruct (exit_step (core a) e He) as (_ & _ & E3 & E4 & E5 & E6 & E7 & E8).
    by split_and!. }
  clearbody a1. revert a1 Ha1.
  induction Hall as [|e' tr He' Hall IH]; intros a1 (Ht & Hd1 & Hc1); [by split_and!|].
  destruct (torn_down_astep a1 e' He' Ht Hd1 Hc1) as (T & E1 & E2 & E3 & E4 & E5).
  change (arun a1 (e' :: tr)) with (arun (astep a1 e') tr).
  destruct (IH (astep a1 e') T) as (T1 & T2 & T3 & F1 & F2 & F3 & F4 & F5).
  cbv zeta. rewrite F1, F2, F3, F4, F5. by split_and!.
Qed.

(** X10. After an interruption that finds no decode pending, the next buffer
    is scheduled relative to the clock: if its decode settles before any
    other callback runs, it starts at the clock time read then, the stop
    calls of the interruption are the only thing logged in between, and it
    is the only active handle. *)
Theorem buffer_after_interruption_starts_now (a : Async) (r : Render)
    (mi m : LiveServerMessage) (now : Q) (sci sc : ServerContent)
    (ctx : positive) (b64 : string) (buf : AudioBuffer) :
  decoding a = [] -> callbacks (core a) = Some r ->
  audioContextRef (core a) = Some ctx ->
  serverContent mi = Some sci -> interrupted sci = true ->
  serverContent m = Some sc -> interrupted sc = false ->
  base64Audio sc = Some b64 ->
  decodeAudioData (base64ToUint8Array b64) ctx 24000 1 = Some buf ->
  (0 <= now)%Q ->
  let a' := arun a [MessageArrives mi; MessageArrives m; DecodeSettles 0 now] in
  exists start,
    effects (core a') =
      effects (core a) ++ map SourceStop (elements (sourcesRef (core a))) ++
        [SourceStart (nextNode (core a)) start buf] /\
    (start == now)%Q /\
    sourcesRef (core a') = {[nextNode (core a)]} /\
    (nextStartTimeRef (core a') == now + duration buf)%Q /\
    decoding a' = [].
Proof.
  intros Hd Hcb Hctx Hsci Hinti Hsc Hint Hb64 Hdec Hnow a'.
  assert (core a' = handleServerMessage m now (handleServerMessage mi 0 (core a)) /\
          decoding a' = []) as [Hcore Hdone].
  { unfold a'. cbn [arun fold_left].
    assert (astep a (MessageArrives mi) =
            mkAsync (handleServerMessage mi 0 (core a)) [] (connecting a)) as ->.
    { cbn [astep]. rewrite Hcb. unfold beginMessage, handleServerMessage.
      by rewrite Hsci, Hctx, Hinti, Hd. }
    set (s1 := handleServerMessage mi 0 (core a)).
    assert (s1 = handleInterruption (core a)) as Hs1.
    { unfold s1, handleServerMessage. by rewrite Hsci, Hctx, Hinti. }
    rewrite handleInterruption_eq in Hs1.
    assert (callbacks s1 = Some r /\ audioContextRef s1 = Some ctx) as [Hcb1 Hctx1]
      by (by rewrite Hs1).
    rewrite (handleServerMessage_split m now s1).
    cbn [astep core decoding connecting]. rewrite Hcb1.
    destruct (beginMessage m s1) as [s2 pending] eqn:Hb.
    unfold beginMessage in Hb. rewrite Hsc, Hctx1, Hint, Hb64 in Hb.
    injection Hb as <- <-. done. }
  destruct (interruption_then_buffer (core a) mi m 0 now sci sc ctx b64 buf)
    as (start & E1 & E2 & E3 & E4); try done.
  exists start. rewrite Hcore. by split_and!.
Qed.

(** X19. The capture path does not consult the connection state: in every
    state in which the capture processor is installed, whatever
    [isConnected] and [error] are, the capture windows delivered to it are
    encoded and handed to [session.sendRealtimeInput] in capture order
    (none, if the [isMuted] captured by the callback is set), and
    [isConnected] and [error] are left as they are; [onclose] and [onerror]
    leave the processor installed and hand over nothing themselves.  Once
    [cleanup] has removed the processor a capture window changes nothing. *)
Theorem capture_ignores_connection_state (s : State) (p : Processor)
    (ws : list Float32Array) :
  processorRef s = Some p ->
  let s' := run s (map EvAudioProcess ws) in
  sent (effects s') = sent (effects s) ++
    (if r_isMuted (proc_env p) then [] else map createPCM16Blob ws) /\
  isConnected s' = isConnected s /\ error s' = error s /\
  processorRef (step s EvClose) = processorRef s /\
  processorRef (step s EvError) = processorRef s /\
  sent (effects (step s EvClose)) = sent (effects s) /\
  sent (effects (step s EvError)) = sent (effects s) /\
  (forall w, step (cleanup s) (EvAudioProcess w) = cleanup s).
Proof.
  intros Hp. destruct (audioprocess_run ws s p Hp) as (E1 & E2 & E3 & E4 & E5).
  split_and!; try done.
  - cbn [step]. by destruct (callbacks s).
  - cbn [step]. by destruct (callbacks s).
  - cbn [step]. by destruct (callbacks s).
  - cbn [step]. destruct (callbacks s); [|done].
    simpl. by rewrite sent_app, app_nil_r.
  - intros w. by rewrite cleanup_eq.
Qed.

End SuspensionFacts.

Lemma C8_speaking_state_witness :
  let a := arun (utils := testUtils) initialAsync overlapTrace in
  (admissible (utils := testUtils) initialAsync overlapTrace /\
   speaking_while_busy initialAsync) /\
  (elements (sourcesRef (core a)) = [3%positive] /\ length (decoding a) = 1) /\
  isAiSpeaking (core a) = true.
Proof.
  intros a.
  assert (admissible (utils := testUtils) initialAsync overlapTrace) as H1.
  { cbn. split_and!; try done; try (by left).
    all: intros (_ & H & _); discriminate H. }
  assert (speaking_while_busy initialAsync) as H2 by (by intros [H|H]).
  assert (elements (sourcesRef (core a)) = [3%positive]) as H3
    by (vm_compute; reflexivity).
  assert (length (decoding a) = 1) as H4 by (vm_compute; reflexivity).
  split; [by split|]. split; [by split|].
  apply (proj1 (C8_speaking_state (utils := testUtils) overlapTrace initialAsync H1 H2)).
  right. intros Hnil. fold a in Hnil. rewrite Hnil in H4. discriminate H4.
Defined.

(** Without any turn-complete message, a playback handle is active while
    "AI is speaking" is off.  First run: an interruption arrives while the
    decode of a buffer is pending and clears the state; the decode then
    settles and the buffer is started.  Second run: the debounce timer armed
    by the end of a buffer fires while the decode of the next buffer is
    pending and clears the state; the decode then settles and the buffer is
    started. *)
Lemma speaking_off_behind_pending_decode :
  let a := arun (utils := testUtils) initialAsync interruptedDecodeTrace in
  let b := arun (utils := testUtils) initialAsync debounceDuringDecodeTrace in
  (elements (sourcesRef (core a)) = [3%positive] /\
   scheduled (effects (core a)) = [(1 # 2, duration (mkAudioBuffer 2 24000 1))%Q] /\
   isAiSpeaking (core a) = false /\ timers (core a) = 0 /\ decoding a = []) /\
  (elements (sourcesRef (core b)) = [4%positive] /\
   isAiSpeaking (core b) = false /\ timers (core b) = 0 /\ decoding b = []).
Proof. vm_compute. split_and!; reflexivity. Qed.

(** What is suspended when the component exits is not cancelled: a decode
    pending when the session is ended is scheduled on the closed context
    afterwards, and a microphone request granted after the unmount stores
    its stream, opens the session and lets [onopen] mark it connected. *)
Lemma suspended_handlers_outlive_exit :
  let a := arun (utils := testUtils) initialAsync lateDecodeTrace in
  let b := arun (utils := testUtils) initialAsync lateMediaTrace in
  (audioContextRef (core a) = None /\
   scheduled (effects (core a)) = [(1 # 2, duration (mkAudioBuffer 2 24000 1))%Q] /\
   elements (sourcesRef (core a)) = [3%positive]) /\
  (audioContextRef (core b) = None /\ inputContextRef (core b) = None /\
   streamRef (core b) = Some [7%positive] /\ sessionRef (core b) = true /\
   isConnected (core b) = true /\ processorRef (core b) = None).
Proof. vm_compute. split_and!; reflexivity. Qed.

Lemma nothing_happens_after_exit_witness :
  let a := arun (utils := testUtils) initialAsync
             [Sync (EvMount testEnv); Sync EvOpen;
              MessageArrives (audioMessage "abcd"); DecodeSettles 0 (1 # 2)] in
  let tr := [Sync EvOpen; MessageArrives (audioMessage "abcd"); DecodeSettles 0 2;
             Sync (EvMessage (audioMessage "efgh") 2); MediaSettles;
             Sync (EvAudioProcess window1); Sync EvUnmount] in
  (exit_event EvEndSession /\ decoding a = [] /\ connecting a = None /\
   Forall (fun e' => is_remount e' = false) tr) /\
  scheduled (effects (core (arun (utils := testUtils)
                             (astep (utils := testUtils) a (Sync EvEndSession)) tr))) =
    scheduled (effects (core (astep (utils := testUtils) a (Sync EvEndSession)))) /\
  sent (effects (core (arun (utils := testUtils)
                        (astep (utils := testUtils) a (Sync EvEndSession)) tr))) =
    sent (effects (core (astep (utils := testUtils) a (Sync EvEndSession)))).
Proof.
  intros a tr.
  assert (exit_event EvEndSession) as H1 by (by left).
  assert (decoding a = []) as H2 by (vm_compute; reflexivity).
  assert (connecting a = None) as H3 by (vm_compute; reflexivity).
  assert (Forall (fun e' => is_remount e' = false) tr) as H4 by (repeat constructor).
  split; [by split_and!|].
  destruct (nothing_happens_after_exit (utils := testUtils) a EvEndSession tr H1 H2 H3 H4)
    as (_ & _ & _ & E1 & E2 & _).
  split; [exact E1 | exact E2].
Defined.

Lemma buffer_after_interruption_starts_now_witness :
  let a := arun (utils := testUtils) initialAsync
             [Sync (EvMount testEnv); Sync EvOpen;
              MessageArrives (audioMessage "abcd"); DecodeSettles 0 (1 # 2)] in
  (decoding a = [] /\ callbacks (core a) = Some (mkRender false) /\
   audioContextRef (core a) = Some 2%positive /\ (0 <= 3)%Q) /\
  sourcesRef (core (arun (utils := testUtils) a
                      [MessageArrives interruptedMessage;
                       MessageArrives (audioMessage "efgh");
                       DecodeSettles 0 3])) =
    {[nextNode (core a)]}.
Proof.
  intros a.
  assert (decoding a = []) as H0 by (vm_compute; reflexivity).
  assert (callbacks (core a) = Some (mkRender false)) as H1 by (vm_compute; reflexivity).
  assert (audioContextRef (core a) = Some 2%positive) as H2 by (vm_compute; reflexivity).
  assert (0 <= 3)%Q as H3 by (vm_compute; discriminate).
  split; [by split_and!|].
  destruct (buffer_after_interruption_starts_now (utils := testUtils) a _
              interruptedMessage (audioMessage "efgh") 3 _ _ 2%positive _
              (mkAudioBuffer 2 24000 1)
              H0 H1 H2 eq_refl eq_refl eq_refl eq_refl eq_refl eq_refl H3)
    as (start & _ & _ & Hsrc & _).
  exact Hsrc.
Defined.

Lemma capture_ignores_connection_state_witness :
  let s := run (utils := testUtils) initialState erroredTrace in
  (processorRef s = Some (mkProcessor 2 (mkRender false)) /\
   isConnected s = false /\ error s = Some "Connection lost. Please try again.") /\
  sent (effects (run (utils := testUtils) s (map EvAudioProcess [window1; window2]))) =
    sent (effects s) ++
    map (createPCM16Blob (AudioUtils := testUtils)) [window1; window2].
Proof.
  intros s.
  assert (processorRef s = Some (mkProcessor 2 (mkRender false))) as Hp
    by (vm_compute; reflexivity).
  assert (isConnected s = false) as Hc by (vm_compute; reflexivity).
  assert (error s = Some "Connection lost. Please try again.") as He
    by (vm_compute; reflexivity).
  split; [by split_and!|].
  exact (proj1 (capture_ignores_connection_state (utils := testUtils) s _
                  [window1; window2] Hp)).
Defined.
